(** * rn-form: the corporation-number lookup hook and the onboarding form

    A shallow embedding of
      - [src/hooks/use-corporation-number-validation.ts]
        (the hook [useCorporationNumberValidation]: [validate], [reset]) and
      - [src/components/onboarding/onboarding-form.tsx]
        (the schema [onboardingSchema], [ensureCorporationValid], [onSubmit]
        and the conditional rendering of the corporation field).

    The hook's refs and React state are fields of one record that is threaded
    through every call.  An [async] function is cut at each [await]: the part
    before the first [await] is one state transformer, and every continuation
    is another one that receives how the awaited promise settled.  The hook
    is run as an event system ([Session]), and so is the form ([Page]), where
    presses, blurs and answers interleave; [validate_await] and [onSubmit]
    are the same code followed from call to return while nothing else
    happens.  The platform ([fetch], [AbortController], [Response.json],
    React's drawing of children) and the form library (react-hook-form with
    the zod resolver) are not part of the repository; they are modelled by
    their documented behaviour.

    JavaScript strings are Rocq strings: one character stands for one UTF-16
    code unit (only code units below 256 can be written). *)

From Stdlib Require Import String Ascii List ZArith QArith Bool Lia.
From stdpp Require Import gmap strings list fin_maps.

Local Open Scope string_scope.

(* ===================================================================== *)
(** ** JavaScript values *)
(* ===================================================================== *)

(** What [response.json()] can produce, plus [undefined].  Objects and arrays
    are heap objects: [ref] is the identity that [===] compares.  Numbers are
    the finite doubles, seen as rationals (only being zero is ever
    observed). *)
#[warnings="-register-all"] Inductive JsValue : Type :=
| JUndefined
| JNull
| JBool (b : bool)
| JNum (q : Q)
| JStr (s : string)
| JArray (ref : nat) (items : list JsValue)
| JObject (ref : nat) (props : list (string * JsValue)).

(** [v === undefined || v === null] *)
Definition nullish (v : JsValue) : bool :=
  match v with
  | JUndefined | JNull => true
  | _ => false
  end.

(** [a ?? b] *)
Definition coalesce (a b : JsValue) : JsValue :=
  if nullish a then b else a.

(** [Boolean(v)], also the test of [&&], [?:] and [if]. *)
Definition truthy (v : JsValue) : bool :=
  match v with
  | JUndefined | JNull => false
  | JBool b => b
  | JNum q => negb (Qnum q =? 0)%Z
  | JStr s => negb (String.eqb s "")
  | JArray _ _ | JObject _ _ => true
  end.

Fixpoint own_property (props : list (string * JsValue)) (key : string) : JsValue :=
  match props with
  | [] => JUndefined
  | (k, v) :: rest => if String.eqb k key then v else own_property rest key
  end.

(** [v.key] for a [v] that is not nullish and a [key] that no prototype
    defines (the program reads [valid] and [message] only). *)
Definition member (v : JsValue) (key : string) : JsValue :=
  match v with
  | JObject _ props => own_property props key
  | _ => JUndefined
  end.

(** [v?.key] *)
Definition opt_member (v : JsValue) (key : string) : JsValue :=
  if nullish v then JUndefined else member v key.

(** [a === b] *)
Definition strict_equals (a b : JsValue) : bool :=
  match a, b with
  | JUndefined, JUndefined => true
  | JNull, JNull => true
  | JBool x, JBool y => Bool.eqb x y
  | JNum x, JNum y => Qeq_bool x y
  | JStr x, JStr y => String.eqb x y
  | JArray r _, JArray r' _ => Nat.eqb r r'
  | JObject r _, JObject r' _ => Nat.eqb r r'
  | _, _ => false
  end.

(* ===================================================================== *)
(** ** The two regular expressions *)
(* ===================================================================== *)

(** [\d] *)
Definition is_digit (a : ascii) : bool :=
  (48 <=? nat_of_ascii a)%nat && (nat_of_ascii a <=? 57)%nat.

Fixpoint all_digits (s : string) : bool :=
  match s with
  | EmptyString => true
  | String a rest => is_digit a && all_digits rest
  end.

(** [/^\d{9}$/.test(s)] *)
Definition nine_digits (s : string) : bool :=
  (String.length s =? 9)%nat && all_digits s.

(** [/^\+1\d{10}$/.test(s)] *)
Definition canadian_phone (s : string) : bool :=
  match s with
  | String "+" (String "1" rest) => (String.length rest =? 10)%nat && all_digits rest
  | _ => false
  end.

(* ===================================================================== *)
(** ** The hook [useCorporationNumberValidation] *)
(* ===================================================================== *)

Record CorporationValidationResult : Type := mkResult {
  valid : bool;
  message : JsValue   (* [JUndefined] when the property is absent *)
}.

Inductive CorporationValidationStatus : Type := Idle | Loading | Valid | Invalid.

Definition CORPORATION_ENDPOINT : string :=
  "https://fe-hometask-api.qa.vault.tryvault.com/corporation-number".

(** An [AbortController] is known by the order of its construction. *)
Definition Controller : Type := nat.

(** One call [fetch(url, { method, signal })] made by the hook. *)
Record FetchCall : Type := mkFetchCall {
  url : string;
  http_method : string;
  signal : Controller
}.

(** [cacheRef.current], [abortRef.current], the [aborted] flag of every
    controller's signal, the two pieces of React state, and the calls the hook
    has made to [fetch] so far (newest first). *)
Record Hook : Type := mkHook {
  cacheRef : gmap string CorporationValidationResult;
  abortRef : option Controller;
  aborted : gset Controller;
  controllers : nat;
  status : CorporationValidationStatus;
  errorMessage : JsValue;
  fetch_calls : list FetchCall
}.

(** The state of a freshly mounted hook. *)
Definition useCorporationNumberValidation : Hook :=
  {| cacheRef := ∅; abortRef := None; aborted := ∅; controllers := 0;
     status := Idle; errorMessage := JNull; fetch_calls := [] |}.

Definition setStatus (s : CorporationValidationStatus) (h : Hook) : Hook :=
  {| cacheRef := cacheRef h; abortRef := abortRef h; aborted := aborted h;
     controllers := controllers h; status := s;
     errorMessage := errorMessage h; fetch_calls := fetch_calls h |}.

Definition setErrorMessage (m : JsValue) (h : Hook) : Hook :=
  {| cacheRef := cacheRef h; abortRef := abortRef h; aborted := aborted h;
     controllers := controllers h; status := status h;
     errorMessage := m; fetch_calls := fetch_calls h |}.

(** [cacheRef.current.set(key, r)] *)
Definition cache_set (key : string) (r : CorporationValidationResult) (h : Hook) : Hook :=
  {| cacheRef := <[key := r]> (cacheRef h); abortRef := abortRef h;
     aborted := aborted h; controllers := controllers h; status := status h;
     errorMessage := errorMessage h; fetch_calls := fetch_calls h |}.

(** [abortRef.current?.abort()] *)
Definition abort_current (h : Hook) : Hook :=
  match abortRef h with
  | None => h
  | Some c =>
      {| cacheRef := cacheRef h; abortRef := abortRef h;
         aborted := {[c]} ∪ aborted h; controllers := controllers h;
         status := status h; errorMessage := errorMessage h;
         fetch_calls := fetch_calls h |}
  end.

(** [const controller = new AbortController(); abortRef.current = controller] *)
Definition new_controller (h : Hook) : Controller * Hook :=
  (controllers h,
   {| cacheRef := cacheRef h; abortRef := Some (controllers h);
      aborted := aborted h; controllers := S (controllers h);
      status := status h; errorMessage := errorMessage h;
      fetch_calls := fetch_calls h |}).

(** [fetch(...)] is called: the call is recorded. *)
Definition call_fetch (c : FetchCall) (h : Hook) : Hook :=
  {| cacheRef := cacheRef h; abortRef := abortRef h; aborted := aborted h;
     controllers := controllers h; status := status h;
     errorMessage := errorMessage h; fetch_calls := c :: fetch_calls h |}.

(** [controller.signal.aborted] *)
Definition signal_aborted (c : Controller) (h : Hook) : bool :=
  bool_decide (c ∈ aborted h).

Definition fallbackMessage : string := "Invalid corporation number".

(** How the promise of [fetch] settles, and how the promise of
    [response.json()] settles. *)
Inductive FetchSettled : Type :=
| FetchRejected
| FetchResponse (ok : bool).

Inductive JsonSettled : Type :=
| JsonRejected
| JsonParsed (payload : JsValue).

(** The status and message that go with a result (lines 31-32 and 69-70). *)
Definition apply_result (r : CorporationValidationResult) (h : Hook) : Hook :=
  setErrorMessage (if valid r then JNull else coalesce (message r) JNull)
    (setStatus (if valid r then Valid else Invalid) h).

(** [validate], from its entry to the first [await]: either the call returns
    at once, or it is suspended on the [fetch] it issued with the signal of
    the controller it made. *)
Definition validate (corporationNumber : string) (h : Hook)
  : Hook * (CorporationValidationResult + Controller) :=
  if negb (nine_digits corporationNumber) then
    (h, inl {| valid := false; message := JUndefined |})
  else
    match cacheRef h !! corporationNumber with
    | Some cached => (apply_result cached h, inl cached)
    | None =>
        let '(controller, h1) := new_controller (abort_current h) in
        let h2 := setErrorMessage JNull (setStatus Loading h1) in
        (call_fetch {| url := CORPORATION_ENDPOINT ++ "/" ++ corporationNumber;
                       http_method := "GET";
                       signal := controller |} h2,
         inr controller)
    end.

(** The [catch] block. *)
Definition validate_catch (controller : Controller) (h : Hook)
  : Hook * CorporationValidationResult :=
  if signal_aborted controller h then
    (h, {| valid := false; message := JUndefined |})
  else
    (setErrorMessage (JStr fallbackMessage) (setStatus Invalid h),
     {| valid := false; message := JStr fallbackMessage |}).

(** [validate], resumed when the promise of [fetch] settles: it returns, or
    it is suspended again on [response.json()]. *)
Definition validate_fetched (controller : Controller) (r : FetchSettled) (h : Hook)
  : Hook * (CorporationValidationResult + unit) :=
  match r with
  | FetchRejected =>
      let '(h', res) := validate_catch controller h in (h', inl res)
  | FetchResponse false =>
      (setErrorMessage (JStr fallbackMessage) (setStatus Invalid h),
       inl {| valid := false; message := JStr fallbackMessage |})
  | FetchResponse true => (h, inr tt)
  end.

(** The result built from the payload (lines 61-66). *)
Definition result_of_payload (payload : JsValue) : CorporationValidationResult :=
  {| valid := truthy (opt_member payload "valid");
     message := if truthy (opt_member payload "valid") then JUndefined
                else coalesce (opt_member payload "message") (JStr "Invalid corporation number") |}.

(** [validate], resumed when the promise of [response.json()] settles. *)
Definition validate_parsed (controller : Controller) (corporationNumber : string)
    (r : JsonSettled) (h : Hook) : Hook * CorporationValidationResult :=
  match r with
  | JsonRejected => validate_catch controller h
  | JsonParsed payload =>
      let result := result_of_payload payload in
      (apply_result result (cache_set corporationNumber result h), result)
  end.

(** [reset] *)
Definition reset (h : Hook) : Hook :=
  setErrorMessage JNull (setStatus Idle (abort_current h)).

(** [isLoading] *)
Definition isLoading (h : Hook) : bool :=
  match status h with Loading => true | _ => false end.

(* ===================================================================== *)
(** ** A session of the hook: calls and settling promises, interleaved *)
(* ===================================================================== *)

(** Where a call of [validate] is suspended. *)
Inductive Phase : Type := AwaitingFetch | AwaitingJson.

(** The hook together with the calls of [validate] that are suspended at an
    [await], each known by the controller it made, with its argument. *)
Record Session : Type := mkSession {
  hook : Hook;
  suspended : gmap Controller (string * Phase)
}.

Definition mounted : Session :=
  {| hook := useCorporationNumberValidation; suspended := ∅ |}.

(** What the event loop can run next. *)
Inductive Event : Type :=
| CallValidate (corporationNumber : string)
| FetchSettles (c : Controller) (r : FetchSettled)
| JsonSettles (c : Controller) (r : JsonSettled)
| CallReset.

(** One turn of the event loop; the second component is the value a call of
    [validate] returned in this turn, if one returned.  [None] when the event
    cannot happen (no call is suspended there). *)
Definition step (e : Event) (s : Session)
  : option (Session * option CorporationValidationResult) :=
  match e with
  | CallValidate n =>
      match validate n (hook s) with
      | (h, inl r) => Some (mkSession h (suspended s), Some r)
      | (h, inr c) =>
          Some (mkSession h (<[c := (n, AwaitingFetch)]> (suspended s)), None)
      end
  | FetchSettles c r =>
      match suspended s !! c with
      | Some (n, AwaitingFetch) =>
          match validate_fetched c r (hook s) with
          | (h, inl res) => Some (mkSession h (delete c (suspended s)), Some res)
          | (h, inr _) =>
              Some (mkSession h (<[c := (n, AwaitingJson)]> (suspended s)), None)
          end
      | _ => None
      end
  | JsonSettles c r =>
      match suspended s !! c with
      | Some (n, AwaitingJson) =>
          let '(h, res) := validate_parsed c n r (hook s) in
          Some (mkSession h (delete c (suspended s)), Some res)
      | _ => None
      end
  | CallReset => Some (mkSession (reset (hook s)) (suspended s), None)
  end.

(** The contract of [fetch] with an [AbortSignal]: once the signal is
    aborted, the promise of [fetch] and the promise of [response.json()]
    reject; they do not fulfil. *)
Definition honours_abort (e : Event) (s : Session) : bool :=
  match e with
  | FetchSettles c (FetchResponse _) => negb (signal_aborted c (hook s))
  | JsonSettles c (JsonParsed _) => negb (signal_aborted c (hook s))
  | _ => true
  end.

(** Run a list of events.  With [contract = true] every event must honour the
    abort contract. *)
Fixpoint run (contract : bool) (es : list Event) (s : Session) : option Session :=
  match es with
  | [] => Some s
  | e :: rest =>
      if contract && negb (honours_abort e s) then None
      else match step e s with
           | Some (s', _) => run contract rest s'
           | None => None
           end
  end.

(** The controller whose request an event settles. *)
Definition settles (e : Event) : option Controller :=
  match e with
  | FetchSettles c _ | JsonSettles c _ => Some c
  | _ => None
  end.


(** The session in which the request of [c] is no longer awaited. *)
Definition forget (c : Controller) (s : Session) : Session :=
  {| hook := hook s; suspended := delete c (suspended s) |}.

(* ===================================================================== *)
(** ** The form [OnboardingForm] *)
(* ===================================================================== *)

Record OnboardingFormValues : Type := mkValues {
  firstName : string;
  lastName : string;
  phone : string;
  corporationNumber : string
}.

Definition defaultValues : OnboardingFormValues :=
  {| firstName := ""; lastName := ""; phone := ""; corporationNumber := "" |}.

(** [formState.errors]: for each field the [message] of its error, [None]
    when the field has no error. *)
Record FieldErrors : Type := mkErrors {
  firstName_error : option JsValue;
  lastName_error : option JsValue;
  phone_error : option JsValue;
  corporationNumber_error : option JsValue
}.

Definition no_errors : FieldErrors :=
  {| firstName_error := None; lastName_error := None;
     phone_error := None; corporationNumber_error := None |}.

Definition isEmptyObject (e : FieldErrors) : bool :=
  match firstName_error e, lastName_error e, phone_error e, corporationNumber_error e with
  | None, None, None, None => true
  | _, _, _, _ => false
  end.

(** [z.string().min(1, required).max(50, too_long)]: the resolver keeps the
    first issue of a field. *)
Definition min1_max50 (required too_long s : string) : option JsValue :=
  if (String.length s <? 1)%nat then Some (JStr required)
  else if (50 <? String.length s)%nat then Some (JStr too_long)
  else None.

(** [z.string().regex(re, msg)] *)
Definition regex (test : string -> bool) (msg s : string) : option JsValue :=
  if test s then None else Some (JStr msg).

(** [zodResolver(onboardingSchema)] applied to the values. *)
Definition onboardingSchema (v : OnboardingFormValues) : FieldErrors :=
  {| firstName_error :=
       min1_max50 "First name is required"
                  "First name must be 50 characters or less" (firstName v);
     lastName_error :=
       min1_max50 "Last name is required"
                  "Last name must be 50 characters or less" (lastName v);
     phone_error :=
       regex canadian_phone
         "Enter a valid Canadian phone number starting with +1 followed by 10 digits"
         (phone v);
     corporationNumber_error :=
       regex nine_digits "Corporation number must be exactly 9 digits"
         (corporationNumber v) |}.

Definition PROFILE_ENDPOINT : string :=
  "https://fe-hometask-api.qa.vault.tryvault.com/profile-details".

(** One call [fetch(url, { method, headers, body: JSON.stringify(values) })]
    made by [onSubmit]; [post_body] is the object given to [JSON.stringify]. *)
Record ProfileRequest : Type := mkProfileRequest {
  post_url : string;
  post_method : string;
  post_content_type : string;
  post_body : OnboardingFormValues
}.

(** The state behind one rendering of the form: what react-hook-form holds,
    the two [useState] cells, the hook, and the calls [onSubmit] has made to
    [fetch] (newest first). *)
Record Form : Type := mkForm {
  values : OnboardingFormValues;
  errors : FieldErrors;
  serverError : JsValue;
  serverSuccess : JsValue;
  corporation : Hook;
  profile_calls : list ProfileRequest
}.

Definition OnboardingForm : Form :=
  {| values := defaultValues; errors := no_errors;
     serverError := JNull; serverSuccess := JNull;
     corporation := useCorporationNumberValidation; profile_calls := [] |}.

Definition set_values (v : OnboardingFormValues) (f : Form) : Form :=
  {| values := v; errors := errors f; serverError := serverError f;
     serverSuccess := serverSuccess f; corporation := corporation f;
     profile_calls := profile_calls f |}.

Definition set_errors (e : FieldErrors) (f : Form) : Form :=
  {| values := values f; errors := e; serverError := serverError f;
     serverSuccess := serverSuccess f; corporation := corporation f;
     profile_calls := profile_calls f |}.

Definition setServerError (m : JsValue) (f : Form) : Form :=
  {| values := values f; errors := errors f; serverError := m;
     serverSuccess := serverSuccess f; corporation := corporation f;
     profile_calls := profile_calls f |}.

Definition setServerSuccess (m : JsValue) (f : Form) : Form :=
  {| values := values f; errors := errors f; serverError := serverError f;
     serverSuccess := m; corporation := corporation f;
     profile_calls := profile_calls f |}.

Definition set_corporation (h : Hook) (f : Form) : Form :=
  {| values := values f; errors := errors f; serverError := serverError f;
     serverSuccess := serverSuccess f; corporation := h;
     profile_calls := profile_calls f |}.

Definition call_profile_fetch (r : ProfileRequest) (f : Form) : Form :=
  {| values := values f; errors := errors f; serverError := serverError f;
     serverSuccess := serverSuccess f; corporation := corporation f;
     profile_calls := r :: profile_calls f |}.

Definition with_corporationNumber_error (m : option JsValue) (e : FieldErrors)
  : FieldErrors :=
  {| firstName_error := firstName_error e; lastName_error := lastName_error e;
     phone_error := phone_error e; corporationNumber_error := m |}.

(** react-hook-form, field [corporationNumber]:
    [trigger] validates the one field with the resolver, stores or removes
    its error and tells whether it is valid; [setError] stores a message;
    [clearErrors] removes the error; [reset()] goes back to [defaultValues]
    with no errors. *)
Definition trigger_corporationNumber (f : Form) : Form * bool :=
  let e := corporationNumber_error (onboardingSchema (values f)) in
  (set_errors (with_corporationNumber_error e (errors f)) f,
   match e with None => true | Some _ => false end).

Definition setError_corporationNumber (m : JsValue) (f : Form) : Form :=
  set_errors (with_corporationNumber_error (Some m) (errors f)) f.

Definition clearErrors_corporationNumber (f : Form) : Form :=
  set_errors (with_corporationNumber_error None (errors f)) f.

Definition reset_form (f : Form) : Form :=
  set_errors no_errors (set_values defaultValues f).

(** [handleSubmit(cb)]: the resolver validates all the values; the errors it
    finds replace [formState.errors]; [cb] runs with the values only when
    there is none. *)
Definition handleSubmit (cb : OnboardingFormValues -> Form -> Form) (f : Form) : Form :=
  let e := onboardingSchema (values f) in
  if isEmptyObject e then cb (values f) (set_errors no_errors f)
  else set_errors e f.

(** A call of [validate] followed to its return, in a run where nothing else
    happens meanwhile: [fr] and [jr] tell how the promises settle if the call
    comes to await them. *)
Definition validate_await (n : string) (fr : FetchSettled) (jr : JsonSettled)
    (h : Hook) : Hook * CorporationValidationResult :=
  match validate n h with
  | (h1, inl r) => (h1, r)
  | (h1, inr controller) =>
      match validate_fetched controller fr h1 with
      | (h2, inl r) => (h2, r)
      | (h2, inr _) => validate_parsed controller n jr h2
      end
  end.

Definition ensureCorporationValid (fr : FetchSettled) (jr : JsonSettled) (f : Form)
  : Form * bool :=
  let '(f1, baseValid) := trigger_corporationNumber f in
  if negb baseValid then (f1, false)
  else
    let value := corporationNumber (values f1) in
    let '(h, result) := validate_await value fr jr (corporation f1) in
    let f2 := set_corporation h f1 in
    if negb (valid result) then
      (setError_corporationNumber
         (coalesce (message result) (JStr "Invalid corporation number")) f2,
       false)
    else (clearErrors_corporationNumber f2, true).

Definition handleCorporationBlur (fr : FetchSettled) (jr : JsonSettled) (f : Form)
  : Form :=
  fst (ensureCorporationValid fr jr f).

(** The [onBlur] of the corporation input (lines 249-252): the field's own
    [onBlur] (mode [onBlur]: the resolver validates the field), then
    [handleCorporationBlur]. *)
Definition corporation_onBlur (fr : FetchSettled) (jr : JsonSettled) (f : Form)
  : Form :=
  handleCorporationBlur fr jr (fst (trigger_corporationNumber f)).

(** How the [POST] settles: [fetch] rejects, or it gives a response whose
    [json()] settles as told. *)
Inductive PostSettled : Type :=
| PostRejected
| PostResponse (ok : bool) (json : JsonSettled).

(** The function given to [handleSubmit] (lines 104-137), followed from its
    call to its end while nothing else happens; [page_step] has the same code
    cut at its [await]s. *)
Definition submit (fr : FetchSettled) (jr : JsonSettled) (post : PostSettled)
    (vals : OnboardingFormValues) (f : Form) : Form :=
  let f0 := setServerSuccess JNull (setServerError JNull f) in
  let '(f1, corporationOk) := ensureCorporationValid fr jr f0 in
  if negb corporationOk then f1
  else
    let f2 := call_profile_fetch
                {| post_url := PROFILE_ENDPOINT; post_method := "POST";
                   post_content_type := "application/json";
                   post_body := vals |} f1 in
    match post with
    | PostRejected =>
        setServerError (JStr "Unable to submit form right now. Please try again.") f2
    | PostResponse false json =>
        let payload := match json with
                       | JsonParsed p => p
                       | JsonRejected => JNull
                       end in
        setServerError
          (coalesce (opt_member payload "message")
             (JStr "Submission failed. Review your details and try again."))
          f2
    | PostResponse true _ =>
        set_corporation (reset (corporation f2))
          (reset_form (setServerSuccess (JStr "Details submitted successfully.") f2))
    end.

Definition onSubmit (fr : FetchSettled) (jr : JsonSettled) (post : PostSettled)
    (f : Form) : Form :=
  handleSubmit (submit fr jr post) f.

(** *** What is rendered under the corporation input *)

Inductive Rendered : Type :=
| ValidationRow                                  (* spinner and helper text *)
| CorporationValid                               (* testID corporation-valid *)
| CorporationValidationError (text : JsValue)    (* testID corporation-validation-error *)
| CorporationError (text : JsValue)              (* testID corporation-error *)
| RawText (text : JsValue).                      (* a value left by [&&], drawn as bare text *)

Definition testID (r : Rendered) : option string :=
  match r with
  | ValidationRow => None
  | CorporationValid => Some "corporation-valid"
  | CorporationValidationError _ => Some "corporation-validation-error"
  | CorporationError _ => Some "corporation-error"
  | RawText _ => None
  end.

(** The elements drawn with [styles.errorText]. *)
Definition error_text (r : Rendered) : option JsValue :=
  match r with
  | CorporationValidationError t | CorporationError t => Some t
  | _ => None
  end.

Definition status_is (a b : CorporationValidationStatus) : bool :=
  match a, b with
  | Idle, Idle | Loading, Loading | Valid, Valid | Invalid, Invalid => true
  | _, _ => false
  end.

(** [errors.corporationNumber?.message] *)
Definition corporationNumber_message (f : Form) : JsValue :=
  match corporationNumber_error (errors f) with
  | Some m => m
  | None => JUndefined
  end.

Definition corporationErrorMatchesValidationMessage (f : Form) : bool :=
  truthy (errorMessage (corporation f))
  && strict_equals (corporationNumber_message f) (errorMessage (corporation f)).

(** What React draws for a child that is a value and not an element (what
    an [a && b && <Text/>] chain leaves when [b] is falsy): nothing for
    [null], [undefined], a boolean or the empty string; bare text for a
    number, zero included, and for any other string. *)
Definition bare_child (v : JsValue) : list Rendered :=
  match v with
  | JNum _ => [RawText v]
  | JStr s => if String.eqb s "" then [] else [RawText v]
  | _ => []
  end.

(** Lines 263-291. *)
Definition render_corporation_field (f : Form) : list Rendered :=
  let isCheckingCorporation := isLoading (corporation f) in
  let corporationStatus := status (corporation f) in
  let corporationValidationMessage := errorMessage (corporation f) in
  (if isCheckingCorporation then [ValidationRow] else [])
  ++ (if negb isCheckingCorporation && status_is corporationStatus Valid
      then [CorporationValid] else [])
  ++ (if negb isCheckingCorporation && status_is corporationStatus Invalid
      then if truthy corporationValidationMessage
           then [CorporationValidationError corporationValidationMessage]
           else bare_child corporationValidationMessage
      else [])
  ++ (match corporationNumber_error (errors f) with
      | Some m =>
          if negb (corporationErrorMatchesValidationMessage f)
          then [CorporationError m] else []
      | None => []
      end).

(** Whether React accepts a value as the child of a [<Text>]: a plain object
    is refused (the render throws), an array is accepted when its items
    are. *)
Fixpoint valid_child (v : JsValue) : bool :=
  match v with
  | JObject _ _ => false
  | JArray _ items =>
      (fix all_valid (l : list JsValue) : bool :=
         match l with
         | [] => true
         | x :: rest => valid_child x && all_valid rest
         end) items
  | _ => true
  end.

(** The render throws: one of the texts to be drawn is refused by React.
    When this is false, what is drawn under the input is
    [render_corporation_field]. *)
Definition render_throws (f : Form) : bool :=
  existsb (fun r => match r with
                    | CorporationValidationError t | CorporationError t =>
                        negb (valid_child t)
                    | _ => false
                    end)
    (render_corporation_field f).

(** The user types into the corporation input ([onChangeText]). *)
Definition type_corporationNumber (s : string) (f : Form) : Form :=
  set_values {| firstName := firstName (values f); lastName := lastName (values f);
                phone := phone (values f); corporationNumber := s |} f.

(* ===================================================================== *)
(** ** Notions used by the statements *)
(* ===================================================================== *)

(** The address [validate] gives to [fetch] for a number. *)
Definition lookup_url (n : string) : string := CORPORATION_ENDPOINT ++ "/" ++ n.

(** A call to the lookup endpoint for a number of nine digits. *)
Definition lookup_of_nine_digits (call : FetchCall) : Prop :=
  ∃ n, nine_digits n = true ∧ url call = lookup_url n ∧ http_method call = "GET".

(** The request of a suspended call fails: [fetch] rejects (a transport
    error), the response is not 2xx, or its body cannot be read as JSON. *)
Definition request_fails (e : Event) : bool :=
  match e with
  | FetchSettles _ FetchRejected => true
  | FetchSettles _ (FetchResponse false) => true
  | JsonSettles _ JsonRejected => true
  | _ => false
  end.

(** The [POST] got a 2xx response. *)
Definition accepted (post : PostSettled) : bool :=
  match post with
  | PostResponse true _ => true
  | _ => false
  end.

(** Controllers are made in order, so a suspended call or [abortRef.current]
    never names one that is not made yet; a suspended call has a number of
    nine digits; a suspended call whose signal is not aborted is the one
    [abortRef.current] holds (so there is at most one), and its number is not
    in the cache. *)
Record well_formed (s : Session) : Prop := mkWf {
  wf_fresh : ∀ c n ph,
    suspended s !! c = Some (n, ph) → c < controllers (hook s);
  wf_digits : ∀ c n ph,
    suspended s !! c = Some (n, ph) → nine_digits n = true;
  wf_current : ∀ c,
    abortRef (hook s) = Some c → c < controllers (hook s);
  wf_single : ∀ c n ph,
    suspended s !! c = Some (n, ph) → c ∉ aborted (hook s) →
    abortRef (hook s) = Some c;
  wf_uncached : ∀ c n ph,
    suspended s !! c = Some (n, ph) → c ∉ aborted (hook s) →
    cacheRef (hook s) !! n = None
}.


(* ===================================================================== *)
(** ** Sample sessions and forms *)
(* ===================================================================== *)

(** After [validate("123456789")] on a fresh hook: one request in flight. *)
Definition awaiting_fetch_123 : Session :=
  {| hook := {| cacheRef := ∅; abortRef := Some 0; aborted := ∅; controllers := 1;
                status := Loading; errorMessage := JNull;
                fetch_calls := [ {| url := lookup_url "123456789";
                                    http_method := "GET"; signal := 0 |} ] |};
     suspended := {[ 0 := ("123456789", AwaitingFetch) ]} |}.

(** ... and after that request was answered by a response that is not 2xx. *)
Definition after_not_ok : Session :=
  {| hook := setErrorMessage (JStr fallbackMessage)
               (setStatus Invalid (hook awaiting_fetch_123));
     suspended := ∅ |}.

(** After [validate("123456789")] and then, before any answer,
    [validate("987654321")]: two requests in flight, the first one aborted. *)
Definition two_lookups : Session :=
  {| hook := {| cacheRef := ∅; abortRef := Some 1; aborted := {[ 0 ]}; controllers := 2;
                status := Loading; errorMessage := JNull;
                fetch_calls := [ {| url := lookup_url "987654321";
                                    http_method := "GET"; signal := 1 |};
                                 {| url := lookup_url "123456789";
                                    http_method := "GET"; signal := 0 |} ] |};
     suspended := {[ 0 := ("123456789", AwaitingFetch);
                     1 := ("987654321", AwaitingFetch) ]} |}.

(** The lookup of 123456789 got a 2xx response; its body is awaited. *)
Definition awaiting_payload_123 : Session :=
  {| hook := {| cacheRef := ∅; abortRef := Some 0; aborted := ∅; controllers := 1;
                status := Loading; errorMessage := JNull;
                fetch_calls := [ {| url := lookup_url "123456789";
                                    http_method := "GET"; signal := 0 |} ] |};
     suspended := {[ 0 := ("123456789", AwaitingJson) ]} |}.

Definition invalid_fallback : CorporationValidationResult :=
  {| valid := false; message := JStr "Invalid corporation number" |}.

(** ... and the body was the empty object. *)
Definition after_empty_payload : Session :=
  {| hook := apply_result invalid_fallback
               (cache_set "123456789" invalid_fallback (hook awaiting_payload_123));
     suspended := ∅ |}.

Definition payload_valid : JsValue :=
  JObject 0 [("corporationNumber", JStr "826417395"); ("valid", JBool true)].

(** The lookup of 826417395 got a 2xx response; its body is awaited. *)
Definition awaiting_payload : Session :=
  {| hook := {| cacheRef := ∅; abortRef := Some 0; aborted := ∅; controllers := 1;
                status := Loading; errorMessage := JNull;
                fetch_calls := [ {| url := lookup_url "826417395";
                                    http_method := "GET"; signal := 0 |} ] |};
     suspended := {[ 0 := ("826417395", AwaitingJson) ]} |}.

(** ... and the body was [payload]. *)
Definition after_payload (payload : JsValue) : Session :=
  {| hook := apply_result (result_of_payload payload)
               (cache_set "826417395" (result_of_payload payload) (hook awaiting_payload));
     suspended := ∅ |}.

(** The form of the test "submits the form when every field passes
    validation", before the corporation input is blurred. *)
Definition filled_form : Form :=
  set_values {| firstName := "Hello"; lastName := "World";
                phone := "+13062776103"; corporationNumber := "826417395" |}
    OnboardingForm.

(* ===================================================================== *)
(** ** Notions used by the further properties *)
(* ===================================================================== *)

(** The shape of the results the hook builds from a payload: a valid one has
    no message, an invalid one has a message that is neither [undefined] nor
    [null]. *)
Definition well_shaped (r : CorporationValidationResult) : bool :=
  if valid r then match message r with JUndefined => true | _ => false end
  else negb (nullish (message r)).

(** An event that is the settling of a promise (not a call from the form). *)
Definition is_settle (e : Event) : bool :=
  match settles e with Some _ => true | None => false end.


(** What holds of the hook in every session, whatever the network does. *)
Record session_inv (s : Session) : Prop := mkSessionInv {
  si_fresh : ∀ c n ph,
    suspended s !! c = Some (n, ph) → c < controllers (hook s);
  si_current : ∀ c,
    abortRef (hook s) = Some c → c < controllers (hook s);
  si_aborted : ∀ c,
    c ∈ aborted (hook s) → c < controllers (hook s);
  si_single : ∀ c n ph,
    suspended s !! c = Some (n, ph) → c ∉ aborted (hook s) →
    abortRef (hook s) = Some c;
  si_loading :
    status (hook s) = Loading →
    ∃ c n ph, abortRef (hook s) = Some c
              ∧ suspended s !! c = Some (n, ph) ∧ c ∉ aborted (hook s);
  si_digits : ∀ c n ph,
    suspended s !! c = Some (n, ph) → nine_digits n = true;
  si_cache : ∀ n r,
    cacheRef (hook s) !! n = Some r →
    nine_digits n = true ∧ well_shaped r = true;
  si_message :
    if status_is (status (hook s)) Invalid
    then nullish (errorMessage (hook s)) = false
    else errorMessage (hook s) = JNull;
  si_signals :
    map signal (fetch_calls (hook s)) = rev (seq 0 (controllers (hook s)))
}.

(** The controller a call would construct next is not aborted already, and
    [abortRef.current] is an older one. *)
Definition hook_ok (h : Hook) : Prop :=
  ∀ c, c ∈ aborted h ∨ abortRef h = Some c → c < controllers h.

(** The messages of the corporation field are text: errorMessage is [null]
    or a string, and the field error, when there is one, is a string. *)
Definition messages_are_text (f : Form) : bool :=
  match errorMessage (corporation f) with
  | JNull | JStr _ => true
  | _ => false
  end
  && match corporationNumber_error (errors f) with
     | None | Some (JStr _) => true
     | _ => false
     end.

(** The message of the schema for the corporation number. *)
Definition format_message : JsValue :=
  JStr "Corporation number must be exactly 9 digits".

(** The request [onSubmit] sends for the values [v]. *)
Definition profile_request (v : OnboardingFormValues) : ProfileRequest :=
  {| post_url := PROFILE_ENDPOINT; post_method := "POST";
     post_content_type := "application/json"; post_body := v |}.


(* ===================================================================== *)
(** ** The form as an event system: presses, blurs and settling promises *)
(* ===================================================================== *)

(** [onSubmit] and [ensureCorporationValid] are [async]: between their
    [await]s the user can press or blur again and other answers can arrive.
    Here each of them is cut at its [await]s, as the hook is in [Session].
    ([handleSubmit] and [trigger] only await the resolver, which settles
    before the event loop takes another event.) *)

(** Who awaits a call of [validate]: the blur handler, or the submit attempt
    numbered [a] with the values [handleSubmit] gave to its handler. *)
Inductive Caller : Type :=
| FromBlur
| FromSubmit (a : nat) (vals : OnboardingFormValues).

(** Where a submit attempt is suspended: in [ensureCorporationValid] on
    [validate] (line 108), on the [fetch] of the [POST] (line 114), or on
    [response.json()] (line 123). *)
Inductive Submitting : Type := AwaitingLookup | AwaitingPost | AwaitingPostJson.

Record Page : Type := mkPage {
  form : Form;
  lookups : gmap Controller (string * Phase * Caller);
  attempts : gmap nat Submitting;
  presses : nat
}.

Definition mounted_page : Page :=
  {| form := OnboardingForm; lookups := ∅; attempts := ∅; presses := 0 |}.

Definition set_form (f : Form) (p : Page) : Page :=
  {| form := f; lookups := lookups p; attempts := attempts p; presses := presses p |}.

(** Lines 88-97: [ensureCorporationValid] once [validate] has returned. *)
Definition ensure_resume (result : CorporationValidationResult) (f : Form)
  : Form * bool :=
  if negb (valid result) then
    (setError_corporationNumber
       (coalesce (message result) (JStr "Invalid corporation number")) f,
     false)
  else (clearErrors_corporationNumber f, true).

(** What the caller does when [ensureCorporationValid] returns [ok]: the blur
    handler nothing; the submit handler returns when [ok] is false (lines
    109-111) and otherwise issues the [POST] (lines 113-120). *)
Definition ensured (who : Caller) (ok : bool) (p : Page) : Page :=
  match who with
  | FromBlur => p
  | FromSubmit a vals =>
      if ok then
        {| form := call_profile_fetch
                     {| post_url := PROFILE_ENDPOINT; post_method := "POST";
                        post_content_type := "application/json";
                        post_body := vals |} (form p);
           lookups := lookups p;
           attempts := <[a := AwaitingPost]> (attempts p);
           presses := presses p |}
      else
        {| form := form p; lookups := lookups p;
           attempts := delete a (attempts p); presses := presses p |}
  end.

(** A call of [validate] returns [result] to [ensureCorporationValid],
    leaving the hook [h]. *)
Definition validate_returns (who : Caller) (h : Hook)
    (result : CorporationValidationResult) (p : Page) : Page :=
  let '(f, ok) := ensure_resume result (set_corporation h (form p)) in
  ensured who ok (set_form f p).

(** [ensureCorporationValid] from its entry (lines 81-87) until [validate]
    returns or is suspended. *)
Definition ensure_start (who : Caller) (p : Page) : Page :=
  let '(f1, baseValid) := trigger_corporationNumber (form p) in
  if negb baseValid then ensured who false (set_form f1 p)
  else
    let value := corporationNumber (values f1) in
    match validate value (corporation f1) with
    | (h, inl result) => validate_returns who h result (set_form f1 p)
    | (h, inr c) =>
        {| form := set_corporation h f1;
           lookups := <[c := (value, AwaitingFetch, who)]> (lookups p);
           attempts := attempts p; presses := presses p |}
    end.

Inductive PageEvent : Type :=
| PressSubmit
| BlurCorporation
| Edit (v : OnboardingFormValues)
| LookupFetchSettles (c : Controller) (r : FetchSettled)
| LookupJsonSettles (c : Controller) (r : JsonSettled)
| PostFetchSettles (a : nat) (r : FetchSettled)
| PostJsonSettles (a : nat) (r : JsonSettled).

(** One turn of the event loop of the page; [None] when the event cannot
    happen. *)
Definition page_step (e : PageEvent) (p : Page) : option Page :=
  match e with
  | PressSubmit =>
      let errs := onboardingSchema (values (form p)) in
      if isEmptyObject errs then
        let a := presses p in
        let f0 := setServerSuccess JNull
                    (setServerError JNull (set_errors no_errors (form p))) in
        Some (ensure_start (FromSubmit a (values (form p)))
                {| form := f0; lookups := lookups p;
                   attempts := <[a := AwaitingLookup]> (attempts p);
                   presses := S a |})
      else
        Some {| form := set_errors errs (form p); lookups := lookups p;
                attempts := attempts p; presses := S (presses p) |}
  | BlurCorporation =>
      Some (ensure_start FromBlur
              (set_form (fst (trigger_corporationNumber (form p))) p))
  | Edit v => Some (set_form (set_values v (form p)) p)
  | LookupFetchSettles c r =>
      match lookups p !! c with
      | Some (n, AwaitingFetch, who) =>
          match validate_fetched c r (corporation (form p)) with
          | (h, inl result) =>
              Some (validate_returns who h result
                      {| form := form p; lookups := delete c (lookups p);
                         attempts := attempts p; presses := presses p |})
          | (h, inr _) =>
              Some {| form := set_corporation h (form p);
                      lookups := <[c := (n, AwaitingJson, who)]> (lookups p);
                      attempts := attempts p; presses := presses p |}
          end
      | _ => None
      end
  | LookupJsonSettles c r =>
      match lookups p !! c with
      | Some (n, AwaitingJson, who) =>
          let '(h, result) := validate_parsed c n r (corporation (form p)) in
          Some (validate_returns who h result
                  {| form := form p; lookups := delete c (lookups p);
                     attempts := attempts p; presses := presses p |})
      | _ => None
      end
  | PostFetchSettles a r =>
      match attempts p !! a with
      | Some AwaitingPost =>
          match r with
          | FetchRejected =>
              Some {| form := setServerError
                                (JStr "Unable to submit form right now. Please try again.")
                                (form p);
                      lookups := lookups p; attempts := delete a (attempts p);
                      presses := presses p |}
          | FetchResponse false =>
              Some {| form := form p; lookups := lookups p;
                      attempts := <[a := AwaitingPostJson]> (attempts p);
                      presses := presses p |}
          | FetchResponse true =>
              let f := form p in
              Some {| form := set_corporation (reset (corporation f))
                                (reset_form
                                   (setServerSuccess
                                      (JStr "Details submitted successfully.") f));
                      lookups := lookups p; attempts := delete a (attempts p);
                      presses := presses p |}
          end
      | _ => None
      end
  | PostJsonSettles a r =>
      match attempts p !! a with
      | Some AwaitingPostJson =>
          let payload := match r with
                         | JsonParsed body => body
                         | JsonRejected => JNull
                         end in
          Some {| form := setServerError
                            (coalesce (opt_member payload "message")
                               (JStr "Submission failed. Review your details and try again."))
                            (form p);
                  lookups := lookups p; attempts := delete a (attempts p);
                  presses := presses p |}
      | _ => None
      end
  end.

Fixpoint page_run (es : list PageEvent) (p : Page) : option Page :=
  match es with
  | [] => Some p
  | e :: rest =>
      match page_step e p with
      | Some p' => page_run rest p'
      | None => None
      end
  end.

(** The submit attempt to which an event brings the answer of its [POST]. *)
Definition response_to (e : PageEvent) : option nat :=
  match e with
  | PostFetchSettles a _ | PostJsonSettles a _ => Some a
  | _ => None
  end.

(** The submit attempt [a] is suspended. *)
Definition in_progress (a : nat) (p : Page) : bool :=
  match attempts p !! a with
  | Some _ => true
  | None => false
  end.

(** Run a trace during which the attempt [a] stays suspended and the answer
    to the [POST] of no other attempt is handled. *)
Fixpoint run_during (a : nat) (es : list PageEvent) (p : Page) : option Page :=
  match es with
  | [] => Some p
  | e :: rest =>
      if match response_to e with
         | Some b => Nat.eqb b a
         | None => true
         end
      then match page_step e p with
           | Some p' => if in_progress a p' then run_during a rest p' else None
           | None => None
           end
      else None
  end.

(** Neither serverError nor serverSuccess is set. *)
Definition nothing_surfaced (f : Form) : Prop :=
  serverError f = JNull ∧ serverSuccess f = JNull.

(** The page of the test "submits the form when every field passes
    validation", before the corporation input is blurred. *)
Definition filled_page : Page :=
  {| form := filled_form; lookups := ∅; attempts := ∅; presses := 0 |}.

(** ... and after the submit button was pressed: the lookup of its attempt
    is in flight. *)
Definition pressed_page : Page :=
  match page_step PressSubmit filled_page with
  | Some p => p
  | None => filled_page
  end.
(* ===================================================================== *)
(** ** Invariants of a session *)
(* ===================================================================== *)

Lemma signal_aborted_true c h : signal_aborted c h = true ↔ c ∈ aborted h.
Proof. unfold signal_aborted. apply bool_decide_eq_true. Qed.

Lemma signal_aborted_false c h : signal_aborted c h = false ↔ c ∉ aborted h.
Proof. unfold signal_aborted. apply bool_decide_eq_false. Qed.

Lemma aborted_abort_current c h :
  c ∈ aborted (abort_current h) ↔ abortRef h = Some c ∨ c ∈ aborted h.
Proof.
  unfold abort_current. destruct (abortRef h) as [c'|]; simpl.
  - rewrite elem_of_union, elem_of_singleton. split.
    + intros [->|?]; auto.
    + intros [[= ->]|?]; auto.
  - split; [auto | intros [[=]|?]; auto].
Qed.

Lemma abort_current_frame h :
  cacheRef (abort_current h) = cacheRef h
  ∧ abortRef (abort_current h) = abortRef h
  ∧ controllers (abort_current h) = controllers h
  ∧ status (abort_current h) = status h
  ∧ errorMessage (abort_current h) = errorMessage h
  ∧ fetch_calls (abort_current h) = fetch_calls h.
Proof.
  unfold abort_current. destruct (abortRef h) eqn:E; simpl; rewrite ?E; repeat split; reflexivity.
Qed.

(** The [catch] block changes at most the two pieces of React state. *)
Lemma validate_catch_frame c h h' r :
  validate_catch c h = (h', r) →
  cacheRef h' = cacheRef h ∧ abortRef h' = abortRef h
  ∧ aborted h' = aborted h ∧ controllers h' = controllers h
  ∧ fetch_calls h' = fetch_calls h.
Proof.
  unfold validate_catch. destruct (signal_aborted c h); intros [= <- <-]; simpl; repeat split; reflexivity.
Qed.

Lemma well_formed_mounted : well_formed mounted.
Proof. split; simpl; intros; simplify_map_eq. Qed.

(** Inversion of one turn of the event loop. *)
Ltac invert_step H :=
  unfold step in H;
  repeat match type of H with
  | context [validate ?n ?h] =>
      let E := fresh "Ev" in destruct (validate n h) as [? [?|?]] eqn:E
  | context [suspended ?s !! ?c] =>
      let E := fresh "Es" in destruct (suspended s !! c) as [[? [|]]|] eqn:E
  | context [validate_fetched ?c ?r ?h] =>
      let E := fresh "Ef" in destruct (validate_fetched c r h) as [? [?|?]] eqn:E
  | context [validate_parsed ?c ?n ?r ?h] =>
      let E := fresh "Ep" in destruct (validate_parsed c n r h) as [? ?] eqn:E
  end;
  try discriminate H;
  injection H as <- <-.

Lemma well_formed_validate s n s' r :
  well_formed s → step (CallValidate n) s = Some (s', r) → well_formed s'.
Proof.
  intros [W1 Wd W2 W3 W4] H. invert_step H.
  - (* returned at once: only React state changed *)
    unfold validate in Ev. destruct (nine_digits n); simpl in Ev.
    + destruct (cacheRef (hook s) !! n); [|discriminate].
      injection Ev as <- <-. split; simpl; eauto.
    + injection Ev as <- <-. split; eauto.
  - (* a request was issued *)
    unfold validate in Ev.
    destruct (nine_digits n) eqn:Hd; simpl in Ev; [|discriminate].
    destruct (cacheRef (hook s) !! n) eqn:Hc; [discriminate|].
    injection Ev as <- <-.
    destruct (abort_current_frame (hook s)) as (Ec & Ea & En & _).
    split; simpl; rewrite ?En, ?Ec.
    + intros c' n' ph. rewrite lookup_insert. case_decide.
      * intros _. lia.
      * intros Hs. apply W1 in Hs. lia.
    + intros c' n' ph. rewrite lookup_insert. case_decide.
      * by intros [= <- <-].
      * eauto.
    + intros c' [= <-]. lia.
    + intros c' n' ph. rewrite lookup_insert. case_decide.
      * intros _ _. by subst.
      * intros Hs Hna. exfalso. apply Hna, aborted_abort_current.
        destruct (decide (c' ∈ aborted (hook s))); eauto.
    + intros c' n' ph. rewrite lookup_insert. case_decide.
      * intros [= <- <-] _. done.
      * intros Hs Hna. exfalso. apply Hna, aborted_abort_current.
        destruct (decide (c' ∈ aborted (hook s))); eauto.
Qed.

Lemma well_formed_fetch_settles s c fr s' r :
  well_formed s → step (FetchSettles c fr) s = Some (s', r) → well_formed s'.
Proof.
  intros [W1 Wd W2 W3 W4] H. invert_step H.
  - (* the call returned *)
    assert (cacheRef h = cacheRef (hook s) ∧ abortRef h = abortRef (hook s)
            ∧ aborted h = aborted (hook s) ∧ controllers h = controllers (hook s))
      as (Ec & Ea & Eb & En).
    { unfold validate_fetched in Ef. destruct fr as [|[|]].
      - destruct (validate_catch c (hook s)) as [h0 r0] eqn:Ek.
        injection Ef as <- <-.
        apply validate_catch_frame in Ek. tauto.
      - discriminate.
      - by injection Ef as <- <-. }
    split; simpl; rewrite ?Ec, ?Ea, ?Eb, ?En; eauto;
      intros c' n' ph; rewrite lookup_delete; case_decide; try done; eauto.
  - (* the call now awaits [response.json()] *)
    assert (h = hook s) as ->.
    { unfold validate_fetched in Ef. destruct fr as [|[|]].
      - destruct (validate_catch c (hook s)). discriminate.
      - by injection Ef as <-.
      - discriminate. }
    split; simpl; eauto;
      intros c' n' ph; rewrite lookup_insert; case_decide; subst; eauto;
      intros [= <- <-]; eauto.
Qed.

Lemma well_formed_json_settles s c jr s' r :
  well_formed s → honours_abort (JsonSettles c jr) s = true →
  step (JsonSettles c jr) s = Some (s', r) → well_formed s'.
Proof.
  intros [W1 Wd W2 W3 W4] Hon H. invert_step H.
  unfold validate_parsed in Ep. destruct jr as [|payload].
  - apply validate_catch_frame in Ep as (Ec & Ea & Eb & En & _).
    split; simpl; rewrite ?Ec, ?Ea, ?Eb, ?En; eauto;
      intros c' n' ph; rewrite lookup_delete; case_decide; try done; eauto.
  - injection Ep as <- <-.
    simpl in Hon. apply negb_true_iff, signal_aborted_false in Hon.
    pose proof (W3 _ _ _ Es Hon) as Hcur.
    split; simpl; eauto;
      intros c' n' ph; rewrite lookup_delete; case_decide; try done; eauto.
    intros Hs Hna. specialize (W3 _ _ _ Hs Hna). congruence.
Qed.

Lemma well_formed_reset s s' r :
  well_formed s → step CallReset s = Some (s', r) → well_formed s'.
Proof.
  intros [W1 Wd W2 W3 W4] H. invert_step H.
  destruct (abort_current_frame (hook s)) as (Ec & Ea & En & _).
  split; simpl; rewrite ?Ec, ?Ea, ?En; eauto.
  - intros c n ph Hs Hna. apply (W3 _ _ _ Hs). intros Hin.
    apply Hna, aborted_abort_current. auto.
  - intros c n ph Hs Hna. apply (W4 _ _ _ Hs). intros Hin.
    apply Hna, aborted_abort_current. auto.
Qed.

Lemma well_formed_step e s s' r :
  well_formed s → honours_abort e s = true → step e s = Some (s', r) →
  well_formed s'.
Proof.
  destruct e; eauto using well_formed_validate, well_formed_fetch_settles,
    well_formed_json_settles, well_formed_reset.
Qed.

(** Inversion of [run] at a non-empty trace. *)
Lemma run_cons contract e es s s'' :
  run contract (e :: es) s = Some s'' →
  ∃ s' r, (contract = true → honours_abort e s = true)
          ∧ step e s = Some (s', r) ∧ run contract es s' = Some s''.
Proof.
  simpl. destruct contract; simpl.
  - destruct (honours_abort e s); simpl; [|discriminate].
    destruct (step e s) as [[s' r]|]; [|discriminate]. eauto.
  - destruct (step e s) as [[s' r]|]; [|discriminate]. intros. exists s', r.
    split; [discriminate | eauto].
Qed.

Lemma well_formed_run es : ∀ s s',
  well_formed s → run true es s = Some s' → well_formed s'.
Proof.
  induction es as [|e es IH]; intros s s' W H.
  - by injection H as <-.
  - apply run_cons in H as (s1 & r & Hon & Hstep & Hrest).
    specialize (Hon eq_refl). eauto using well_formed_step.
Qed.

Lemma run_app contract es1 : ∀ es2 s s1 s2,
  run contract es1 s = Some s1 → run contract es2 s1 = Some s2 →
  run contract (es1 ++ es2) s = Some s2.
Proof.
  induction es1 as [|e es1 IH]; intros es2 s s1 s2 H1 H2.
  - injection H1 as <-. exact H2.
  - simpl in *. destruct (contract && negb (honours_abort e s)); [discriminate|].
    destruct (step e s) as [[s' r]|]; [|discriminate]. eauto.
Qed.

(** *** What one turn can change *)

(** The cases of the hook's code met in one turn, all at once. *)
Ltac hook_cases :=
  unfold validate, validate_fetched, validate_parsed, validate_catch,
    new_controller, reset, apply_result in *;
  repeat match goal with
  | H : context [if negb (nine_digits ?n) then _ else _] |- _ =>
      destruct (nine_digits n) eqn:?; simpl in H
  | H : context [match cacheRef ?h !! ?n with _ => _ end] |- _ =>
      destruct (cacheRef h !! n) eqn:?
  | H : context [if signal_aborted ?c ?h then _ else _] |- _ =>
      destruct (signal_aborted c h) eqn:?
  | H : context [match ?r with FetchRejected => _ | _ => _ end] |- _ =>
      destruct r as [|[|]]
  | H : context [match ?r with JsonRejected => _ | _ => _ end] |- _ =>
      destruct r
  | H : (_, _) = (_, _) |- _ => injection H as <- <-
  | H : (_, inl _) = (_, inr _) |- _ => discriminate H
  | H : (_, inr _) = (_, inl _) |- _ => discriminate H
  end.

(** The cache changes only when a parsed payload arrives, and then exactly
    the entry of the number that was looked up is written. *)
Lemma step_cache e s s' r :
  step e s = Some (s', r) →
  cacheRef (hook s') = cacheRef (hook s)
  ∨ ∃ c n payload,
      e = JsonSettles c (JsonParsed payload)
      ∧ suspended s !! c = Some (n, AwaitingJson)
      ∧ r = Some (result_of_payload payload)
      ∧ cacheRef (hook s') = <[n := result_of_payload payload]> (cacheRef (hook s)).
Proof.
  intros H. destruct e; invert_step H; hook_cases; simpl;
    rewrite ?(proj1 (abort_current_frame _)); eauto 10.
Qed.




(** A cached result stays, unchanged, for the rest of the session. *)
Lemma cached_step e s s' r n res :
  well_formed s → honours_abort e s = true → step e s = Some (s', r) →
  cacheRef (hook s) !! n = Some res → cacheRef (hook s') !! n = Some res.
Proof.
  intros W Hon H Hn.
  destruct (step_cache _ _ _ _ H) as [->|(c & m & p & -> & Hs & _ & ->)]; [done|].
  simpl in Hon. apply negb_true_iff, signal_aborted_false in Hon.
  pose proof (wf_uncached _ W _ _ _ Hs Hon) as Hm.
  rewrite lookup_insert_ne; [done | congruence].
Qed.

Lemma cached_forever es : ∀ s s' n res,
  well_formed s → run true es s = Some s' →
  cacheRef (hook s) !! n = Some res → cacheRef (hook s') !! n = Some res.
Proof.
  induction es as [|e es IH]; intros s s' n res W H Hn.
  - by injection H as <-.
  - apply run_cons in H as (s1 & r & Hon & Hstep & Hrest).
    specialize (Hon eq_refl).
    apply (IH s1); [by eapply well_formed_step | done | by eapply cached_step].
Qed.

(** A call for a cached number returns the cached result and issues no
    request. *)
Lemma validate_cached n h res :
  nine_digits n = true → cacheRef h !! n = Some res →
  validate n h = (apply_result res h, inl res).
Proof. intros Hd Hc. unfold validate. by rewrite Hd, Hc. Qed.

Lemma step_fetch_calls e s s' r :
  step e s = Some (s', r) →
  fetch_calls (hook s') = fetch_calls (hook s)
  ∨ ∃ n c, e = CallValidate n ∧ nine_digits n = true
           ∧ cacheRef (hook s) !! n = None ∧ r = None
           ∧ fetch_calls (hook s')
             = {| url := lookup_url n; http_method := "GET"; signal := c |}
               :: fetch_calls (hook s).
Proof.
  intros H. destruct e; invert_step H; hook_cases; simpl;
    rewrite ?(proj2 (proj2 (proj2 (proj2 (proj2 (abort_current_frame _)))))); eauto 10.
Qed.

Lemma run_fetch_calls contract es : ∀ s s',
  run contract es s = Some s' →
  Forall lookup_of_nine_digits (fetch_calls (hook s)) →
  Forall lookup_of_nine_digits (fetch_calls (hook s')).
Proof.
  induction es as [|e es IH]; intros s s' H Hall.
  - by injection H as <-.
  - apply run_cons in H as (s1 & r & _ & Hstep & Hrest).
    apply (IH _ _ Hrest).
    destruct (step_fetch_calls _ _ _ _ Hstep) as [->|(n & c & _ & Hd & _ & _ & ->)]; [done|].
    constructor; [|done]. exists n. simpl. auto.
Qed.

(** *** A request whose signal is aborted *)

(** Under the contract of [fetch], the settling of an aborted request runs the
    [catch] block with [signal.aborted] true: the hook is left as it is and
    the call returns [{ valid: false }]. *)
Lemma settle_aborted e c s s' r :
  c ∈ aborted (hook s) → settles e = Some c → honours_abort e s = true →
  step e s = Some (s', r) →
  s' = forget c s ∧ r = Some {| valid := false; message := JUndefined |}.
Proof.
  intros Hab He Hon H. apply signal_aborted_true in Hab.
  destruct e as [|c' fr|c' jr|]; try discriminate He;
    injection He as ->; simpl in Hon.
  - destruct fr; [|by rewrite Hab in Hon].
    invert_step H; unfold validate_fetched, validate_catch in Ef;
      rewrite Hab in Ef; [|discriminate]. by injection Ef as <- <-.
  - destruct jr; [|by rewrite Hab in Hon].
    invert_step H. unfold validate_parsed, validate_catch in Ep.
    rewrite Hab in Ep. by injection Ep as <- <-.
Qed.





Lemma lookup_url_inj n m : lookup_url n = lookup_url m → n = m.
Proof.
  unfold lookup_url. generalize CORPORATION_ENDPOINT as p.
  induction p as [|a p IH]; simpl; intros H.
  - by injection H.
  - injection H as H. auto.
Qed.


(** The contract matters.  A [fetch] that ignores the signal and fulfils the
    promise of an aborted request lets the late answer overwrite what the
    later lookup had set: the code tests [signal.aborted] in its [catch]
    block only. *)
Remark late_answer_without_the_abort_contract :
  ∃ s1 s2,
    run false [FetchSettles 1 (FetchResponse true);
               JsonSettles 1 (JsonParsed (JObject 0 [("valid", JBool true)]))]
      two_lookups = Some s1
    ∧ status (hook s1) = Valid
    ∧ run false [FetchSettles 0 (FetchResponse false)] s1 = Some s2
    ∧ status (hook s2) = Invalid
    ∧ run true [FetchSettles 0 (FetchResponse false)] s1 = None.
Proof.
  eexists _, _. split; [vm_compute; reflexivity|].
  split; [reflexivity|]. split; [vm_compute; reflexivity|].
  split; [reflexivity|]. vm_compute. reflexivity.
Qed.

(** *** What holds whatever the network does *)

Lemma well_shaped_result_of_payload payload :
  well_shaped (result_of_payload payload) = true.
Proof.
  unfold well_shaped, result_of_payload, coalesce. simpl.
  destruct (truthy (opt_member payload "valid")); [done|].
  by destruct (nullish (opt_member payload "message")) eqn:E; rewrite ?E.
Qed.

Lemma well_shaped_invalid r :
  well_shaped r = true → valid r = false → nullish (coalesce (message r) JNull) = false.
Proof.
  unfold well_shaped, coalesce. intros H Hv. rewrite Hv in H.
  apply negb_true_iff in H. by rewrite H.
Qed.

Lemma rev_seq_S k : rev (seq 0 (S k)) = k :: rev (seq 0 k).
Proof. by rewrite seq_S, rev_app_distr. Qed.

Lemma session_inv_mounted : session_inv mounted.
Proof. split; simpl; intros; simplify_map_eq; try done; set_solver. Qed.

Lemma session_inv_validate s n s' r :
  session_inv s → step (CallValidate n) s = Some (s', r) → session_inv s'.
Proof.
  intros [I1 I2 I3 I4 I5 I6 I7 I8 I9] H. invert_step H.
  - (* the call returned at once *)
    unfold validate in Ev. destruct (nine_digits n); simpl in Ev.
    + destruct (cacheRef (hook s) !! n) as [cached|] eqn:Hc; [|discriminate].
      injection Ev as <- <-. destruct (I7 _ _ Hc) as [_ Hshape].
      split; simpl; eauto; try done.
      * by destruct (valid cached).
      * destruct (valid cached) eqn:Hv; simpl; [done|].
        by apply well_shaped_invalid.
    + injection Ev as <- <-. by split.
  - (* a request was issued *)
    unfold validate in Ev.
    destruct (nine_digits n) eqn:Hd; simpl in Ev; [|discriminate].
    destruct (cacheRef (hook s) !! n) eqn:Hc; [discriminate|].
    injection Ev as <- <-.
    destruct (abort_current_frame (hook s)) as (Ec & Ea & En & _ & _ & Ef).
    assert (∀ c', c' ∈ aborted (abort_current (hook s)) → c' < controllers (hook s)) as Hab.
    { intros c' [?|?]%aborted_abort_current; eauto. }
    split; simpl; rewrite ?En, ?Ec, ?Ef; try done.
    + intros c' n' ph. rewrite lookup_insert. case_decide.
      * intros _. lia.
      * intros Hs. apply I1 in Hs. lia.
    + intros c' [= <-]. lia.
    + intros c' Hin. apply Hab in Hin. lia.
    + intros c' n' ph. rewrite lookup_insert. case_decide.
      * intros _ _. by subst.
      * intros Hs Hna. exfalso. apply Hna, aborted_abort_current.
        destruct (decide (c' ∈ aborted (hook s))); eauto.
    + intros _. exists (controllers (hook s)), n, AwaitingFetch.
      split; [done|]. split; [by rewrite lookup_insert_eq|].
      intros Hin. apply Hab in Hin. lia.
    + intros c' n' ph. rewrite lookup_insert. case_decide.
      * by intros [= <- <-].
      * eauto.
    + rewrite I9. symmetry. apply rev_seq_S.
Qed.

(** The four things the settling of a request can do. *)
Lemma settle_cases e c s s' r :
  settles e = Some c → step e s = Some (s', r) →
  ∃ n ph,
    suspended s !! c = Some (n, ph)
    ∧ ((hook s' = hook s ∧ suspended s' = delete c (suspended s)
        ∧ c ∈ aborted (hook s)
        ∧ r = Some {| valid := false; message := JUndefined |})
       ∨ (hook s' = hook s
          ∧ suspended s' = <[c := (n, AwaitingJson)]> (suspended s)
          ∧ e = FetchSettles c (FetchResponse true) ∧ r = None)
       ∨ (hook s' = setErrorMessage (JStr fallbackMessage) (setStatus Invalid (hook s))
          ∧ suspended s' = delete c (suspended s)
          ∧ request_fails e = true
          ∧ r = Some {| valid := false; message := JStr fallbackMessage |})
       ∨ (∃ payload,
            hook s' = apply_result (result_of_payload payload)
                        (cache_set n (result_of_payload payload) (hook s))
            ∧ suspended s' = delete c (suspended s)
            ∧ e = JsonSettles c (JsonParsed payload)
            ∧ r = Some (result_of_payload payload))).
Proof.
  intros He H. destruct e as [|c' fr|c' jr|]; try discriminate He;
    injection He as ->.
  - invert_step H.
    + exists s0, AwaitingFetch. split; [done|].
      unfold validate_fetched, validate_catch in Ef.
      destruct fr as [|[|]].
      * destruct (signal_aborted c (hook s)) eqn:Hab; injection Ef as <- <-.
        -- left. by apply signal_aborted_true in Hab.
        -- right; right; left. done.
      * discriminate.
      * injection Ef as <- <-. right; right; left. done.
    + exists s0, AwaitingFetch. split; [done|].
      unfold validate_fetched, validate_catch in Ef.
      destruct fr as [|[|]].
      * destruct (signal_aborted c (hook s)); discriminate.
      * injection Ef as <-. right; left. done.
      * discriminate.
  - invert_step H. exists s0, AwaitingJson. split; [done|].
    unfold validate_parsed, validate_catch in Ep. destruct jr as [|payload].
    + destruct (signal_aborted c (hook s)) eqn:Hab; injection Ep as <- <-.
      * left. by apply signal_aborted_true in Hab.
      * right; right; left. done.
    + injection Ep as <- <-. right; right; right. eauto.
Qed.

Lemma session_inv_settle e c s s' r :
  settles e = Some c →
  session_inv s → step e s = Some (s', r) → session_inv s'.
Proof.
  intros He [I1 I2 I3 I4 I5 I6 I7 I8 I9] H.
  destruct (settle_cases _ _ _ _ _ He H) as (n & ph & Hs & Hcase).
  destruct s' as [h' m']. simpl in *.
  destruct Hcase as [(-> & -> & Hab & _)|[(-> & -> & _)|[(-> & -> & _)|(p & -> & -> & _)]]].
  - (* an aborted request is dropped *)
    split; simpl; eauto;
      try (intros c' n' ph'; rewrite lookup_delete; case_decide; try done; eauto).
    intros Hl. destruct (I5 Hl) as (c0 & n0 & ph0 & Hc0 & Hs0 & Hna).
    exists c0, n0, ph0. split; [exact Hc0|]. split; [|exact Hna].
    rewrite lookup_delete_ne; [exact Hs0|]. intros <-. by apply Hna.
  - (* the call moves on to await the body *)
    split; simpl; eauto;
      try (intros c' n' ph'; rewrite lookup_insert; case_decide; subst; eauto;
           intros [= <- <-]; eauto).
    intros Hl. destruct (I5 Hl) as (c0 & n0 & ph0 & Hc0 & Hs0 & Hna).
    destruct (decide (c0 = c)) as [->|Hne].
    + exists c, n, AwaitingJson. rewrite lookup_insert_eq. auto.
    + exists c0, n0, ph0. rewrite lookup_insert_ne by done. auto.
  - (* the request failed *)
    split; simpl; eauto; try done;
      intros c' n' ph'; rewrite lookup_delete; case_decide; try done; eauto.
  - (* a payload arrived *)
    split; simpl; eauto;
      try (intros c' n' ph'; rewrite lookup_delete; case_decide; try done; eauto).
    + by destruct (truthy (opt_member p "valid")).
    + intros n' r'. rewrite lookup_insert. case_decide.
      * intros [= <-]. subst. split; [by eapply I6|].
        apply well_shaped_result_of_payload.
      * apply I7.
    + destruct (truthy (opt_member p "valid")) eqn:Hv; simpl; [done|].
      unfold coalesce.
      destruct (nullish (opt_member p "message")) eqn:E; simpl; by rewrite ?E.
Qed.

Lemma session_inv_reset s s' r :
  session_inv s → step CallReset s = Some (s', r) → session_inv s'.
Proof.
  intros [I1 I2 I3 I4 I5 I6 I7 I8 I9] H. invert_step H.
  destruct (abort_current_frame (hook s)) as (Ec & Ea & En & _ & _ & Ef).
  split; simpl; rewrite ?Ec, ?Ea, ?En, ?Ef; eauto; try done.
  - intros c [?|?]%aborted_abort_current; eauto.
  - intros c n ph Hs Hna. apply (I4 _ _ _ Hs). intros Hin.
    apply Hna, aborted_abort_current. auto.
Qed.

Lemma session_inv_step e s s' r :
  session_inv s → step e s = Some (s', r) → session_inv s'.
Proof.
  destruct e; eauto using session_inv_validate, session_inv_reset;
    intros; eapply session_inv_settle; eauto; reflexivity.
Qed.

Lemma session_inv_run contract es : ∀ s s',
  session_inv s → run contract es s = Some s' → session_inv s'.
Proof.
  induction es as [|e es IH]; intros s s' I H.
  - by injection H as <-.
  - apply run_cons in H as (s1 & r & _ & Hstep & Hrest).
    eauto using session_inv_step.
Qed.

Lemma hook_ok_of_session s : session_inv s → hook_ok (hook s).
Proof. intros I c [?|?]; [by eapply si_aborted | by eapply si_current]. Qed.

(* ===================================================================== *)
(** ** The claims about the hook *)
(* ===================================================================== *)






(** C2.  For a string that does not match [^\d{9}$], [validate] returns
    [{ valid: false }] at once and leaves the hook exactly as it was: no call
    to [fetch] is added and the status does not move (to loading or anywhere
    else).  Consequently, in every session of the hook, whatever the calls
    and whatever the network answers, no request for that string is ever sent
    to the lookup endpoint. *)
Theorem C2_malformed_number_is_never_looked_up (n : string) :
  nine_digits n = false →
  (∀ h, validate n h = (h, inl {| valid := false; message := JUndefined |}))
  ∧ (∀ es s call,
       run false es mounted = Some s →
       call ∈ fetch_calls (hook s) → url call ≠ lookup_url n).
Proof.
  intros Hn. split.
  - intros h. unfold validate. by rewrite Hn.
  - intros es s call Hrun Hin Hurl.
    assert (Forall lookup_of_nine_digits (fetch_calls (hook s))) as Hall.
    { eapply run_fetch_calls; [exact Hrun | constructor]. }
    rewrite Forall_forall in Hall.
    destruct (Hall _ Hin) as (m & Hm & Hu & _).
    rewrite Hu in Hurl. apply lookup_url_inj in Hurl. congruence.
Qed.

Lemma C2_malformed_number_is_never_looked_up_witness :
  (∀ h, validate "12345678a" h
        = (h, inl {| valid := false; message := JUndefined |}))
  ∧ (∀ es s call,
       run false es mounted = Some s →
       call ∈ fetch_calls (hook s) → url call ≠ lookup_url "12345678a").
Proof.
  apply (C2_malformed_number_is_never_looked_up "12345678a"). reflexivity.
Defined.

(** What the arrival of a parsed payload does, and what holds from then on:
    shared by C3 and C10. *)
Lemma payload_is_cached es s c n payload s1 r1 :
  run true es mounted = Some s →
  suspended s !! c = Some (n, AwaitingJson) →
  honours_abort (JsonSettles c (JsonParsed payload)) s = true →
  step (JsonSettles c (JsonParsed payload)) s = Some (s1, r1) →
  let result := result_of_payload payload in
  r1 = Some result
  ∧ hook s1 = apply_result result (cache_set n result (hook s))
  ∧ ∀ es' s2,
      run true es' s1 = Some s2 →
      cacheRef (hook s2) !! n = Some result
      ∧ step (CallValidate n) s2
        = Some ({| hook := apply_result result (hook s2);
                   suspended := suspended s2 |}, Some result).
Proof.
  intros Hreach Hs Hon Hstep result.
  assert (well_formed s) as W by (eapply well_formed_run; eauto using well_formed_mounted).
  assert (well_formed s1) as W1 by (eapply well_formed_step; eauto).
  pose proof (wf_digits _ W _ _ _ Hs) as Hd.
  unfold step in Hstep. rewrite Hs in Hstep. simpl in Hstep.
  injection Hstep as <- <-.
  split; [done|]. split; [done|].
  intros es' s2 Hrun.
  assert (cacheRef (hook s2) !! n = Some result) as Hc.
  { eapply cached_forever; [exact W1 | exact Hrun |]. simpl. apply lookup_insert_eq. }
  split; [exact Hc|].
  unfold step. by rewrite (validate_cached _ _ _ Hd Hc).
Qed.

Lemma coalesce_not_nullish a b : nullish b = false → nullish (coalesce a b) = false.
Proof. unfold coalesce. by destruct (nullish a) eqn:E. Qed.

(** A call for a number of nine digits that is not cached issues a request
    and is suspended on it. *)
Lemma validate_uncached n s :
  nine_digits n = true → cacheRef (hook s) !! n = None →
  ∃ s', step (CallValidate n) s = Some (s', None)
        ∧ fetch_calls (hook s')
          = {| url := lookup_url n; http_method := "GET";
               signal := controllers (hook s) |} :: fetch_calls (hook s).
Proof.
  intros Hd Hc. unfold step, validate. rewrite Hd, Hc. simpl.
  eexists. split; [reflexivity|]. simpl.
  destruct (abort_current_frame (hook s)) as (_ & _ & -> & _ & _ & ->). done.
Qed.

(** C3, as amended.  Once the lookup of a 9-digit number was answered by a
    2xx response with a JSON payload, every later call of [validate] for that
    number in the session, whatever happened in between, makes no network
    call: it returns at once the cached result, equal to the result the first
    call returned, and sets status and errorMessage according to it.  The two
    calls together made one network call. *)
Theorem C3_second_call_is_served_from_cache es s c n payload s1 r1 es' s2 :
  run true es mounted = Some s →
  suspended s !! c = Some (n, AwaitingJson) →
  honours_abort (JsonSettles c (JsonParsed payload)) s = true →
  step (JsonSettles c (JsonParsed payload)) s = Some (s1, r1) →
  run true es' s1 = Some s2 →
  nine_digits n = true
  ∧ ∃ s3 result,
      r1 = Some result
      ∧ step (CallValidate n) s2 = Some (s3, Some result)
      ∧ fetch_calls (hook s3) = fetch_calls (hook s2)
      ∧ suspended s3 = suspended s2
      ∧ status (hook s3) = (if valid result then Valid else Invalid)
      ∧ errorMessage (hook s3)
        = (if valid result then JNull else coalesce (message result) JNull).
Proof.
  intros Hreach Hs Hon Hstep Hrun.
  assert (well_formed s) as W by (eapply well_formed_run; eauto using well_formed_mounted).
  split; [by eapply wf_digits|].
  destruct (payload_is_cached _ _ _ _ _ _ _ Hreach Hs Hon Hstep) as (-> & _ & Hlater).
  destruct (Hlater _ _ Hrun) as [_ Hcall].
  eexists _, _. split; [reflexivity|]. split; [exact Hcall|]. done.
Qed.

Lemma C3_second_call_is_served_from_cache_witness :
  nine_digits "826417395" = true
  ∧ ∃ s3 result,
      Some {| valid := true; message := JUndefined |} = Some result
      ∧ step (CallValidate "826417395") (mkSession (reset (hook (after_payload payload_valid))) ∅)
        = Some (s3, Some result)
      ∧ fetch_calls (hook s3) = fetch_calls (reset (hook (after_payload payload_valid)))
      ∧ suspended s3 = ∅
      ∧ status (hook s3) = (if valid result then Valid else Invalid)
      ∧ errorMessage (hook s3)
        = (if valid result then JNull else coalesce (message result) JNull).
Proof.
  apply (C3_second_call_is_served_from_cache
           [CallValidate "826417395"; FetchSettles 0 (FetchResponse true)]
           awaiting_payload 0 "826417395" payload_valid
           (after_payload payload_valid) (Some {| valid := true; message := JUndefined |})
           [CallReset]
           (mkSession (reset (hook (after_payload payload_valid))) ∅)).
  - vm_compute. reflexivity.
  - vm_compute. reflexivity.
  - vm_compute. reflexivity.
  - vm_compute. reflexivity.
  - vm_compute. reflexivity.
Defined.

(** C3 as the specification states it fails: the first lookup of 123456789
    is answered by a response that is not 2xx, the first call returns the
    fallback result, nothing is cached, and the second call does not return
    that result from a cache: it issues a second request. *)
Lemma C3_counterexample :
  ∃ s1 first s2 s3,
    nine_digits "123456789" = true
    ∧ step (CallValidate "123456789") mounted = Some (s1, None)
    ∧ step (FetchSettles 0 (FetchResponse false)) s1 = Some (s2, Some first)
    ∧ step (CallValidate "123456789") s2 = Some (s3, None)
    ∧ length (fetch_calls (hook s3)) = 2.
Proof.
  eexists _, _, _, _. split; [reflexivity|].
  split; [vm_compute; reflexivity|].
  split; [vm_compute; reflexivity|].
  split; [vm_compute; reflexivity|].
  vm_compute. reflexivity.
Qed.

(** C10.  A 2xx response whose payload has no truthy [valid] (no such field,
    a falsy one, or a payload that is not an object): the call returns
    [{ valid: false, message }] where [message] is [payload.message] when
    that is neither absent nor [null], and "Invalid corporation number"
    otherwise; status becomes invalid, errorMessage that message, and the
    result is cached for the number.  For the rest of the session the cache
    keeps this result, and every later call of [validate] for the number
    returns it without a call to [fetch]. *)
Theorem C10_payload_without_truthy_valid_is_cached es s c n payload s1 r1 :
  run true es mounted = Some s →
  suspended s !! c = Some (n, AwaitingJson) →
  honours_abort (JsonSettles c (JsonParsed payload)) s = true →
  truthy (opt_member payload "valid") = false →
  step (JsonSettles c (JsonParsed payload)) s = Some (s1, r1) →
  let result :=
    {| valid := false;
       message := if nullish (opt_member payload "message")
                  then JStr "Invalid corporation number"
                  else opt_member payload "message" |} in
  r1 = Some result
  ∧ status (hook s1) = Invalid
  ∧ errorMessage (hook s1) = message result
  ∧ cacheRef (hook s1) !! n = Some result
  ∧ ∀ es' s2,
      run true es' s1 = Some s2 →
      cacheRef (hook s2) !! n = Some result
      ∧ ∃ s3, step (CallValidate n) s2 = Some (s3, Some result)
              ∧ fetch_calls (hook s3) = fetch_calls (hook s2).
Proof.
  intros Hreach Hs Hon Hfalsy Hstep result.
  destruct (payload_is_cached _ _ _ _ _ _ _ Hreach Hs Hon Hstep) as (-> & Hh & Hlater).
  assert (result_of_payload payload = result) as Hres.
  { unfold result_of_payload, result, coalesce. by rewrite Hfalsy. }
  rewrite Hres in *.
  split; [done|]. rewrite Hh. simpl.
  split; [done|]. split.
  - unfold coalesce. by destruct (nullish (opt_member payload "message")) eqn:E; rewrite ?E.
  - split; [apply lookup_insert_eq|].
    intros es' s2 Hrun. destruct (Hlater _ _ Hrun) as [Hc Hcall].
    split; [exact Hc|]. eexists. split; [exact Hcall|]. done.
Qed.

Lemma C10_payload_without_truthy_valid_is_cached_witness :
  Some invalid_fallback = Some invalid_fallback
  ∧ status (hook after_empty_payload) = Invalid
  ∧ errorMessage (hook after_empty_payload) = JStr "Invalid corporation number"
  ∧ cacheRef (hook after_empty_payload) !! "123456789" = Some invalid_fallback
  ∧ ∀ es' s2,
      run true es' after_empty_payload = Some s2 →
      cacheRef (hook s2) !! "123456789" = Some invalid_fallback
      ∧ ∃ s3, step (CallValidate "123456789") s2 = Some (s3, Some invalid_fallback)
              ∧ fetch_calls (hook s3) = fetch_calls (hook s2).
Proof.
  apply (C10_payload_without_truthy_valid_is_cached
           [CallValidate "123456789"; FetchSettles 0 (FetchResponse true)]
           awaiting_payload_123 0 "123456789" (JObject 0 [])
           after_empty_payload (Some invalid_fallback)).
  - vm_compute. reflexivity.
  - vm_compute. reflexivity.
  - vm_compute. reflexivity.
  - vm_compute. reflexivity.
  - vm_compute. reflexivity.
Defined.

(** C4, as amended.  In a session where [fetch] honours its abort signal, a
    turn changes the cache only when it delivers the parsed JSON body of a
    2xx response, and then it stores the result built from that payload
    under the number looked up, whatever the payload is.  When the current
    request fails (a transport error, a response that is not 2xx, or a body
    that is not JSON), the cache is left as it was, it holds nothing for that
    number, and the next call of [validate] for the number issues a new
    request. *)
Theorem C4_only_parsed_payloads_are_cached es s e s' r :
  run true es mounted = Some s →
  honours_abort e s = true →
  step e s = Some (s', r) →
  (cacheRef (hook s') ≠ cacheRef (hook s) →
   ∃ c n payload,
     e = JsonSettles c (JsonParsed payload)
     ∧ suspended s !! c = Some (n, AwaitingJson)
     ∧ cacheRef (hook s') = <[n := result_of_payload payload]> (cacheRef (hook s)))
  ∧ (∀ c n ph,
       settles e = Some c → suspended s !! c = Some (n, ph) →
       signal_aborted c (hook s) = false → request_fails e = true →
       cacheRef (hook s') = cacheRef (hook s)
       ∧ cacheRef (hook s') !! n = None
       ∧ ∃ s'', step (CallValidate n) s' = Some (s'', None)
                ∧ fetch_calls (hook s'')
                  = {| url := lookup_url n; http_method := "GET";
                       signal := controllers (hook s') |} :: fetch_calls (hook s')).
Proof.
  intros Hreach Hon Hstep.
  assert (well_formed s) as W by (eapply well_formed_run; eauto using well_formed_mounted).
  pose proof (step_cache _ _ _ _ Hstep) as Hcache.
  split.
  - intros Hne. destruct Hcache as [?|(c & n & p & ? & ? & ? & ?)]; [done|eauto 10].
  - intros c n ph He Hs Hna Hfail. apply signal_aborted_false in Hna.
    assert (cacheRef (hook s') = cacheRef (hook s)) as Hsame.
    { destruct Hcache as [?|(c' & n' & p & -> & _)]; [done|discriminate Hfail]. }
    assert (cacheRef (hook s') !! n = None) as Hnone.
    { rewrite Hsame. by eapply wf_uncached. }
    split; [exact Hsame|]. split; [exact Hnone|].
    apply validate_uncached; [by eapply wf_digits | exact Hnone].
Qed.

Lemma C4_only_parsed_payloads_are_cached_witness :
  cacheRef (hook after_not_ok) = cacheRef (hook awaiting_fetch_123)
  ∧ cacheRef (hook after_not_ok) !! "123456789" = None
  ∧ ∃ s'', step (CallValidate "123456789") after_not_ok = Some (s'', None)
           ∧ fetch_calls (hook s'')
             = {| url := lookup_url "123456789"; http_method := "GET";
                  signal := controllers (hook after_not_ok) |}
               :: fetch_calls (hook after_not_ok).
Proof.
  refine (proj2 (C4_only_parsed_payloads_are_cached
                   [CallValidate "123456789"] awaiting_fetch_123
                   (FetchSettles 0 (FetchResponse false)) after_not_ok
                   (Some invalid_fallback) _ _ _)
                0 "123456789" AwaitingFetch _ _ _ _).
  - vm_compute. reflexivity.
  - vm_compute. reflexivity.
  - vm_compute. reflexivity.
  - vm_compute. reflexivity.
  - vm_compute. reflexivity.
  - vm_compute. reflexivity.
  - vm_compute. reflexivity.
Defined.

(** C4 as the specification states it fails: a 2xx response whose payload is
    the empty object carries no [valid] field at all, and yet a result is
    stored in the cache for the number. *)
Lemma C4_counterexample :
  ∃ s,
    run true [CallValidate "123456789"; FetchSettles 0 (FetchResponse true);
              JsonSettles 0 (JsonParsed (JObject 0 []))] mounted = Some s
    ∧ member (JObject 0 []) "valid" = JUndefined
    ∧ member (JObject 0 []) "message" = JUndefined
    ∧ cacheRef (hook s) !! "123456789"
      = Some {| valid := false; message := JStr "Invalid corporation number" |}.
Proof.
  eexists. split; [vm_compute; reflexivity|].
  split; [reflexivity|]. split; [reflexivity|]. vm_compute. reflexivity.
Qed.

(* ===================================================================== *)
(** ** The claims about the form *)
(* ===================================================================== *)

(** [ensureCorporationValid] touches the errors and the hook only. *)
Lemma ensureCorporationValid_frame fr jr f :
  let f' := fst (ensureCorporationValid fr jr f) in
  values f' = values f ∧ serverError f' = serverError f
  ∧ serverSuccess f' = serverSuccess f ∧ profile_calls f' = profile_calls f.
Proof.
  unfold ensureCorporationValid, trigger_corporationNumber.
  destruct (corporationNumber_error (onboardingSchema (values f))); simpl; [done|].
  destruct (validate_await _ fr jr (corporation f)) as [h result].
  by destruct (valid result).
Qed.

(** Whether the corporation check passes: the format rule, then the lookup. *)
Lemma ensureCorporationValid_ok fr jr f :
  snd (ensureCorporationValid fr jr f)
  = match corporationNumber_error (onboardingSchema (values f)) with
    | Some _ => false
    | None => valid (snd (validate_await (corporationNumber (values f)) fr jr
                            (corporation f)))
    end.
Proof.
  unfold ensureCorporationValid, trigger_corporationNumber.
  destruct (corporationNumber_error (onboardingSchema (values f))); simpl; [done|].
  destruct (validate_await _ fr jr (corporation f)) as [h result]. simpl.
  by destruct (valid result).
Qed.

Lemma isEmptyObject_schema v :
  isEmptyObject (onboardingSchema v) = true →
  corporationNumber_error (onboardingSchema v) = None.
Proof.
  unfold isEmptyObject.
  destruct (firstName_error (onboardingSchema v)),
    (lastName_error (onboardingSchema v)), (phone_error (onboardingSchema v)),
    (corporationNumber_error (onboardingSchema v)); done.
Qed.

(** The handler of [onSubmit], once the corporation check has passed. *)
Lemma submit_sent fr jr post vals f :
  snd (ensureCorporationValid fr jr f) = true →
  let f1 := fst (ensureCorporationValid fr jr
                   (setServerSuccess JNull (setServerError JNull f))) in
  let f' := submit fr jr post vals f in
  profile_calls f'
  = {| post_url := PROFILE_ENDPOINT; post_method := "POST";
       post_content_type := "application/json"; post_body := vals |}
    :: profile_calls f
  ∧ match post with
    | PostRejected =>
        values f' = values f
        ∧ serverError f' = JStr "Unable to submit form right now. Please try again."
        ∧ serverSuccess f' = JNull
    | PostResponse false json =>
        values f' = values f
        ∧ serverError f'
          = coalesce (opt_member (match json with
                                  | JsonParsed p => p
                                  | JsonRejected => JNull
                                  end) "message")
              (JStr "Submission failed. Review your details and try again.")
        ∧ serverSuccess f' = JNull
    | PostResponse true _ =>
        values f' = defaultValues
        ∧ errors f' = no_errors
        ∧ serverError f' = JNull
        ∧ serverSuccess f' = JStr "Details submitted successfully."
        ∧ corporation f' = reset (corporation f1)
    end.
Proof.
  intros Hok f1 f'. subst f1 f'. unfold submit.
  set (f0 := setServerSuccess JNull (setServerError JNull f)).
  assert (snd (ensureCorporationValid fr jr f0) = true) as Hok0.
  { rewrite ensureCorporationValid_ok in *. exact Hok. }
  pose proof (ensureCorporationValid_frame fr jr f0) as (Hv & He & Hs & Hp).
  destruct (ensureCorporationValid fr jr f0) as [f1 ok]. simpl in *. subst ok. simpl.
  destruct post as [|[|] json]; simpl; rewrite ?Hv, ?He, ?Hs, ?Hp; done.
Qed.

(** The handler of [onSubmit], when the corporation check stops it. *)
Lemma submit_stopped fr jr post vals f :
  snd (ensureCorporationValid fr jr f) = false →
  let f' := submit fr jr post vals f in
  values f' = values f ∧ serverError f' = JNull ∧ serverSuccess f' = JNull
  ∧ profile_calls f' = profile_calls f.
Proof.
  intros Hok f'. subst f'. unfold submit.
  set (f0 := setServerSuccess JNull (setServerError JNull f)).
  assert (snd (ensureCorporationValid fr jr f0) = false) as Hok0.
  { rewrite ensureCorporationValid_ok in *. exact Hok. }
  pose proof (ensureCorporationValid_frame fr jr f0) as (Hv & He & Hs & Hp).
  destruct (ensureCorporationValid fr jr f0) as [f1 ok]. simpl in *. subst ok. simpl.
  done.
Qed.

(** C5, on the code.  The corporation input holds 123456789 and is blurred;
    the lookup is answered by a response that is not 2xx.  One error element
    is rendered under the field, the one with testID
    corporation-validation-error, and the element with testID
    corporation-error is not rendered; but the text rendered is
    "Invalid corporation number", not
    "Unable to validate corporation number right now.". *)
Theorem C5_non_2xx_lookup_renders_the_fallback_message :
  let f := corporation_onBlur (FetchResponse false) JsonRejected
             (type_corporationNumber "123456789" OnboardingForm) in
  render_corporation_field f
  = [CorporationValidationError (JStr "Invalid corporation number")]
  ∧ status (corporation f) = Invalid
  ∧ corporationNumber_error (errors f) = Some (JStr "Invalid corporation number")
  ∧ JStr "Invalid corporation number"
    ≠ JStr "Unable to validate corporation number right now.".
Proof. vm_compute. repeat split; discriminate. Qed.

(** *** The submit attempts of a page *)

Lemma ensure_resume_server result f :
  serverError (fst (ensure_resume result f)) = serverError f
  ∧ serverSuccess (fst (ensure_resume result f)) = serverSuccess f.
Proof. unfold ensure_resume. by destruct (valid result). Qed.

Lemma ensured_server who ok p :
  serverError (form (ensured who ok p)) = serverError (form p)
  ∧ serverSuccess (form (ensured who ok p)) = serverSuccess (form p).
Proof. destruct who as [|a vals]; [done|]. by destruct ok. Qed.

Lemma validate_returns_server who h result p :
  serverError (form (validate_returns who h result p)) = serverError (form p)
  ∧ serverSuccess (form (validate_returns who h result p)) = serverSuccess (form p).
Proof.
  unfold validate_returns.
  pose proof (ensure_resume_server result (set_corporation h (form p))) as [He Hs].
  destruct (ensure_resume result (set_corporation h (form p))) as [f ok].
  simpl in He, Hs.
  destruct (ensured_server who ok (set_form f p)) as [-> ->]. done.
Qed.

Lemma ensure_start_server who p :
  serverError (form (ensure_start who p)) = serverError (form p)
  ∧ serverSuccess (form (ensure_start who p)) = serverSuccess (form p).
Proof.
  unfold ensure_start, trigger_corporationNumber.
  destruct (corporationNumber_error (onboardingSchema (values (form p)))); simpl.
  - destruct (ensured_server who false
                (set_form (set_errors
                   (with_corporationNumber_error (Some j) (errors (form p)))
                   (form p)) p)) as [-> ->]. done.
  - destruct (validate _ (corporation (form p))) as [h [result|c]]; [|done].
    destruct (validate_returns_server who h result
                (set_form (set_errors
                   (with_corporationNumber_error None (errors (form p)))
                   (form p)) p)) as [-> ->]. done.
Qed.

(** How [ensured] changes the attempts. *)
Lemma ensured_attempts who ok p b :
  attempts (ensured who ok p) !! b = attempts p !! b
  ∨ ∃ vals, who = FromSubmit b vals
            ∧ ((ok = true ∧ attempts (ensured who ok p) !! b = Some AwaitingPost)
               ∨ (ok = false ∧ attempts (ensured who ok p) !! b = None)).
Proof.
  destruct who as [|a vals]; [by left|]. simpl.
  destruct (decide (a = b)) as [->|Hne].
  - right. exists vals. split; [done|]. destruct ok; simpl.
    + left. by rewrite lookup_insert_eq.
    + right. by rewrite lookup_delete_eq.
  - left. destruct ok; simpl.
    + by rewrite lookup_insert_ne.
    + by rewrite lookup_delete_ne.
Qed.

Lemma validate_returns_attempts who h result p b :
  attempts (validate_returns who h result p) !! b = attempts p !! b
  ∨ ∃ vals, who = FromSubmit b vals.
Proof.
  unfold validate_returns.
  destruct (ensure_resume result (set_corporation h (form p))) as [f ok].
  destruct (ensured_attempts who ok (set_form f p) b) as [->|(vals & -> & _)]; eauto.
Qed.

Lemma ensure_start_attempts who p b :
  attempts (ensure_start who p) !! b = attempts p !! b
  ∨ ∃ vals, who = FromSubmit b vals.
Proof.
  unfold ensure_start.
  destruct (trigger_corporationNumber (form p)) as [f1 baseValid].
  destruct (negb baseValid).
  - destruct (ensured_attempts who false (set_form f1 p) b) as [->|(vals & -> & _)]; eauto.
  - destruct (validate _ (corporation f1)) as [h [result|c]]; [|by left].
    destruct (validate_returns_attempts who h result (set_form f1 p) b) as [->|?]; eauto.
Qed.

(** An event that is not the answer to a [POST] sets neither serverError nor
    serverSuccess: it leaves both, or (a press that passes the schema) clears
    both. *)
Lemma page_step_keeps_nothing e p p' :
  response_to e = None → page_step e p = Some p' →
  nothing_surfaced (form p) → nothing_surfaced (form p').
Proof.
  intros He H [Herr Hsuc]. unfold nothing_surfaced.
  destruct e as [| |v|c r|c r|a r|a r]; try discriminate He; simpl in H.
  - destruct (isEmptyObject _); injection H as <-; [|done].
    match goal with
    | |- context [ensure_start ?w ?q] => destruct (ensure_start_server w q) as [E1 E2]
    end.
    split; [rewrite E1 | rewrite E2]; done.
  - injection H as <-.
    match goal with
    | |- context [ensure_start ?w ?q] => destruct (ensure_start_server w q) as [E1 E2]
    end.
    split; [rewrite E1 | rewrite E2]; done.
  - by injection H as <-.
  - destruct (lookups p !! c) as [[[n [|]] who]|]; try discriminate.
    destruct (validate_fetched c r _) as [h [result|u]]; injection H as <-; [|done].
    match goal with
    | |- context [validate_returns ?w ?h ?x ?q] =>
        destruct (validate_returns_server w h x q) as [E1 E2]
    end.
    split; [rewrite E1 | rewrite E2]; done.
  - destruct (lookups p !! c) as [[[n [|]] who]|]; try discriminate.
    destruct (validate_parsed c n r _) as [h result]. injection H as <-.
    match goal with
    | |- context [validate_returns ?w ?h ?x ?q] =>
        destruct (validate_returns_server w h x q) as [E1 E2]
    end.
    split; [rewrite E1 | rewrite E2]; done.
Qed.

(** The answer to the [POST] of attempt [a]: either the attempt goes on to
    await the body and nothing is set, or it completes and sets one of the
    two, leaving the other as it was. *)
Lemma page_step_response e a p p' :
  response_to e = Some a → page_step e p = Some p' →
  (∀ b, b ≠ a → in_progress b p' = in_progress b p)
  ∧
  ((in_progress a p' = true
   ∧ serverError (form p') = serverError (form p)
   ∧ serverSuccess (form p') = serverSuccess (form p))
  ∨ (in_progress a p' = false
     ∧ match e with
       | PostFetchSettles _ (FetchResponse true) =>
           serverError (form p') = serverError (form p)
           ∧ serverSuccess (form p') = JStr "Details submitted successfully."
       | _ =>
           nullish (serverError (form p')) = false
           ∧ serverSuccess (form p') = serverSuccess (form p)
       end)).
Proof.
  intros He H. unfold in_progress.
  destruct e as [| |v|c r|c r|b r|b r]; try discriminate He;
    injection He as ->; simpl in H;
    destruct (attempts p !! a) as [[| |]|] eqn:Ha; try discriminate.
  - destruct r as [|[|]]; injection H as <-; simpl;
      (split; [intros b Hb;
               by rewrite ?lookup_delete_ne, ?lookup_insert_ne by done|]).
    + right. by rewrite lookup_delete_eq.
    + right. by rewrite lookup_delete_eq.
    + left. by rewrite lookup_insert_eq.
  - injection H as <-. simpl.
    split; [intros b Hb; by rewrite lookup_delete_ne by done|].
    right. rewrite lookup_delete_eq.
    split; [done|]. split; [|done]. by apply coalesce_not_nullish.
Qed.

(** While attempt [a] is suspended and no answer to another attempt is
    handled, nothing is set. *)
Lemma run_during_keeps_nothing a es : ∀ p p',
  run_during a es p = Some p' →
  nothing_surfaced (form p) → nothing_surfaced (form p').
Proof.
  induction es as [|e es IH]; intros p p' H Hn.
  - by injection H as <-.
  - simpl in H.
    destruct (response_to e) as [b|] eqn:He.
    + destruct (Nat.eqb b a) eqn:Hb; [|discriminate]. apply Nat.eqb_eq in Hb as ->.
      destruct (page_step e p) as [p1|] eqn:Hstep; [|discriminate].
      destruct (in_progress a p1) eqn:Hin; [|discriminate].
      apply (IH _ _ H).
      destruct (page_step_response _ _ _ _ He Hstep) as [_ [(_ & He1 & Hs1)|[Hout _]]].
      * destruct Hn as [Hn1 Hn2]. split; congruence.
      * congruence.
    + destruct (page_step e p) as [p1|] eqn:Hstep; [|discriminate].
      destruct (in_progress a p1); [|discriminate].
      apply (IH _ _ H). by eapply page_step_keeps_nothing.
Qed.

(** C6, as amended.  A press of the submit button, in any state of the page,
    other attempts being possibly in flight.  If synchronous validation
    fails, the handler does not run: serverError and serverSuccess are left
    as they were and no attempt starts.  If it passes, both are cleared at
    the start.  From then on, while the attempt is suspended and the answer
    to no other attempt's request is handled, both stay null; and the event
    that completes the attempt leaves exactly one set when it is the answer
    to its request (serverSuccess on a 2xx response, serverError, neither
    null nor undefined, on another response or a rejected [fetch]), and
    both null when it is the corporation check that stops the attempt. *)
Theorem C6_outcome_of_a_submit_attempt p p1 :
  page_step PressSubmit p = Some p1 →
  let a := presses p in
  if isEmptyObject (onboardingSchema (values (form p))) then
    (serverError (form p1) = JNull ∧ serverSuccess (form p1) = JNull)
    ∧ ∀ es p2,
        run_during a es p1 = Some p2 →
        (serverError (form p2) = JNull ∧ serverSuccess (form p2) = JNull)
        ∧ ∀ e p3,
            page_step e p2 = Some p3 →
            in_progress a p2 = true → in_progress a p3 = false →
            match e with
            | PostFetchSettles _ (FetchResponse true) =>
                serverError (form p3) = JNull
                ∧ serverSuccess (form p3) = JStr "Details submitted successfully."
            | PostFetchSettles _ _ | PostJsonSettles _ _ =>
                nullish (serverError (form p3)) = false
                ∧ serverSuccess (form p3) = JNull
            | _ =>
                serverError (form p3) = JNull ∧ serverSuccess (form p3) = JNull
            end
  else
    serverError (form p1) = serverError (form p)
    ∧ serverSuccess (form p1) = serverSuccess (form p)
    ∧ attempts p1 = attempts p
    ∧ corporation (form p1) = corporation (form p).
Proof.
  intros Hpress a. simpl in Hpress.
  destruct (isEmptyObject (onboardingSchema (values (form p)))) eqn:Hsync;
    injection Hpress as <-; [|done].
  assert (nothing_surfaced
            (form (ensure_start (FromSubmit (presses p) (values (form p)))
                     {| form := setServerSuccess JNull
                                  (setServerError JNull (set_errors no_errors (form p)));
                        lookups := lookups p;
                        attempts := <[presses p := AwaitingLookup]> (attempts p);
                        presses := S (presses p) |}))) as Hstart.
  { match goal with
    | |- context [ensure_start ?w ?q] => destruct (ensure_start_server w q) as [E1 E2]
    end.
    split; [rewrite E1 | rewrite E2]; done. }
  split; [exact Hstart|].
  intros es p2 Hrun.
  pose proof (run_during_keeps_nothing _ _ _ _ Hrun Hstart) as Hn.
  split; [exact Hn|].
  intros e p3 Hstep Hin Hout.
  destruct (response_to e) as [b|] eqn:He.
  - destruct (page_step_response _ _ _ _ He Hstep) as [Hother Hcase].
    assert (b = a) as ->.
    { destruct (decide (b = a)) as [?|Hne]; [done|].
      rewrite (Hother a) in Hout by done. congruence. }
    destruct Hcase as [(Hstill & _)|(_ & Hset)]; [congruence|].
    destruct Hn as [Hn1 Hn2].
    destruct e as [| |v|c r|c r|b r|b r]; try discriminate He.
    + destruct r as [|[|]]; destruct Hset as [Hs1 Hs2]; split; congruence.
    + destruct Hset as [Hs1 Hs2]; split; congruence.
  - pose proof (page_step_keeps_nothing _ _ _ He Hstep Hn) as Hn3.
    by destruct e as [| |v|c r|c r|b r|b r]; try discriminate He.
Qed.

Lemma C6_outcome_of_a_submit_attempt_witness :
  (serverError (form pressed_page) = JNull
   ∧ serverSuccess (form pressed_page) = JNull)
  ∧ ∀ es p2,
      run_during 0 es pressed_page = Some p2 →
      (serverError (form p2) = JNull ∧ serverSuccess (form p2) = JNull)
      ∧ ∀ e p3,
          page_step e p2 = Some p3 →
          in_progress 0 p2 = true → in_progress 0 p3 = false →
          match e with
          | PostFetchSettles _ (FetchResponse true) =>
              serverError (form p3) = JNull
              ∧ serverSuccess (form p3) = JStr "Details submitted successfully."
          | PostFetchSettles _ _ | PostJsonSettles _ _ =>
              nullish (serverError (form p3)) = false
              ∧ serverSuccess (form p3) = JNull
          | _ =>
              serverError (form p3) = JNull ∧ serverSuccess (form p3) = JNull
          end.
Proof.
  apply (C6_outcome_of_a_submit_attempt filled_page pressed_page).
  vm_compute. reflexivity.
Defined.

(** Overlapping attempts.  The button is never disabled: with the lookup
    valid and cached, a second press while the first request is awaited
    starts a second attempt; the first is answered 2xx and the second by a
    response that is not 2xx, and serverError and serverSuccess are both
    set. *)
Remark overlapping_attempts_set_both :
  ∃ p,
    page_run [PressSubmit; LookupFetchSettles 0 (FetchResponse true);
              LookupJsonSettles 0 (JsonParsed payload_valid);
              PressSubmit;
              PostFetchSettles 0 (FetchResponse true);
              PostFetchSettles 1 (FetchResponse false);
              PostJsonSettles 1 JsonRejected] filled_page = Some p
    ∧ serverSuccess (form p) = JStr "Details submitted successfully."
    ∧ serverError (form p)
      = JStr "Submission failed. Review your details and try again."
    ∧ attempts p = ∅.
Proof.
  eexists. split; [vm_compute; reflexivity|].
  split; [reflexivity|]. split; [reflexivity|]. vm_compute. reflexivity.
Qed.

(** C6 as the specification states it fails.  Submitting the empty form
    leaves neither serverError nor serverSuccess set.  And after a submission
    that succeeded (which empties the form), the next attempt fails
    synchronous validation and does not clear serverSuccess. *)
Lemma C6_counterexample :
  let first := onSubmit FetchRejected JsonRejected PostRejected OnboardingForm in
  let filled :=
    set_values {| firstName := "Hello"; lastName := "World";
                  phone := "+13062776103"; corporationNumber := "826417395" |}
      OnboardingForm in
  let sent :=
    onSubmit (FetchResponse true)
      (JsonParsed (JObject 0 [("corporationNumber", JStr "826417395");
                              ("valid", JBool true)]))
      (PostResponse true (JsonParsed (JObject 1 []))) filled in
  let again := onSubmit FetchRejected JsonRejected PostRejected sent in
  (serverError first = JNull ∧ serverSuccess first = JNull)
  ∧ serverSuccess sent = JStr "Details submitted successfully."
  ∧ serverSuccess again = JStr "Details submitted successfully.".
Proof. vm_compute. repeat split. Qed.

(** C7.  Every field passes synchronous validation and the lookup of the
    corporation number returns valid.  Then [onSubmit] issues one [POST] to
    the profile endpoint whose JSON body is built from the form values.  On a
    2xx response the values go back to empty and serverSuccess is
    "Details submitted successfully.".  On a response that is not 2xx,
    serverError is the [message] of the response body when the body is JSON
    and that message is neither absent nor null, and
    "Submission failed. Review your details and try again." otherwise.  When
    [fetch] rejects, serverError is the different message
    "Unable to submit form right now. Please try again.". *)
Theorem C7_submission_of_a_valid_form fr jr post f :
  isEmptyObject (onboardingSchema (values f)) = true →
  valid (snd (validate_await (corporationNumber (values f)) fr jr (corporation f)))
  = true →
  let f' := onSubmit fr jr post f in
  profile_calls f'
  = {| post_url := PROFILE_ENDPOINT; post_method := "POST";
       post_content_type := "application/json"; post_body := values f |}
    :: profile_calls f
  ∧ match post with
    | PostResponse true _ =>
        values f' = defaultValues
        ∧ serverSuccess f' = JStr "Details submitted successfully."
        ∧ serverError f' = JNull
    | PostResponse false (JsonParsed body) =>
        serverError f'
        = (if nullish (opt_member body "message")
           then JStr "Submission failed. Review your details and try again."
           else opt_member body "message")
        ∧ serverSuccess f' = JNull
    | PostResponse false JsonRejected =>
        serverError f'
        = JStr "Submission failed. Review your details and try again."
        ∧ serverSuccess f' = JNull
    | PostRejected =>
        serverError f' = JStr "Unable to submit form right now. Please try again."
        ∧ serverSuccess f' = JNull
    end
  ∧ JStr "Unable to submit form right now. Please try again."
    ≠ JStr "Submission failed. Review your details and try again.".
Proof.
  intros Hsync Hvalid f'. subst f'. unfold onSubmit, handleSubmit. rewrite Hsync.
  set (g := set_errors no_errors f).
  assert (snd (ensureCorporationValid fr jr g) = true) as Hok.
  { rewrite ensureCorporationValid_ok.
    change (values g) with (values f). change (corporation g) with (corporation f).
    by rewrite (isEmptyObject_schema _ Hsync). }
  pose proof (submit_sent fr jr post (values f) g Hok) as [Hcall Hpost].
  split; [exact Hcall|]. split; [|discriminate].
  destruct post as [|[|] [|body]]; simpl in *;
    repeat match goal with H : _ ∧ _ |- _ => destruct H as [? ?] end; done.
Qed.

Lemma C7_submission_of_a_valid_form_witness :
  let f' := onSubmit (FetchResponse true) (JsonParsed payload_valid)
              (PostResponse true (JsonParsed (JObject 1 []))) filled_form in
  profile_calls f'
  = {| post_url := PROFILE_ENDPOINT; post_method := "POST";
       post_content_type := "application/json"; post_body := values filled_form |}
    :: profile_calls filled_form
  ∧ (values f' = defaultValues
     ∧ serverSuccess f' = JStr "Details submitted successfully."
     ∧ serverError f' = JNull)
  ∧ JStr "Unable to submit form right now. Please try again."
    ≠ JStr "Submission failed. Review your details and try again.".
Proof.
  apply (C7_submission_of_a_valid_form (FetchResponse true) (JsonParsed payload_valid)
           (PostResponse true (JsonParsed (JObject 1 []))) filled_form).
  - vm_compute. reflexivity.
  - vm_compute. reflexivity.
Defined.

(** C8.  Submitting a form whose four fields are empty strings yields the
    four field errors together, with the messages of the schema, and makes no
    call to [fetch]: neither a lookup nor a submission (the hook is not
    touched at all). *)
Theorem C8_submit_of_the_empty_form fr jr post f :
  values f = defaultValues →
  let f' := onSubmit fr jr post f in
  errors f'
  = {| firstName_error := Some (JStr "First name is required");
       lastName_error := Some (JStr "Last name is required");
       phone_error :=
         Some (JStr "Enter a valid Canadian phone number starting with +1 followed by 10 digits");
       corporationNumber_error :=
         Some (JStr "Corporation number must be exactly 9 digits") |}
  ∧ corporation f' = corporation f
  ∧ fetch_calls (corporation f') = fetch_calls (corporation f)
  ∧ profile_calls f' = profile_calls f.
Proof.
  intros Hv f'. subst f'. unfold onSubmit, handleSubmit. rewrite Hv. done.
Qed.

Lemma C8_submit_of_the_empty_form_witness :
  let f' := onSubmit FetchRejected JsonRejected PostRejected OnboardingForm in
  errors f'
  = {| firstName_error := Some (JStr "First name is required");
       lastName_error := Some (JStr "Last name is required");
       phone_error :=
         Some (JStr "Enter a valid Canadian phone number starting with +1 followed by 10 digits");
       corporationNumber_error :=
         Some (JStr "Corporation number must be exactly 9 digits") |}
  ∧ corporation f' = corporation OnboardingForm
  ∧ fetch_calls (corporation f') = fetch_calls (corporation OnboardingForm)
  ∧ profile_calls f' = profile_calls OnboardingForm.
Proof.
  apply (C8_submit_of_the_empty_form FetchRejected JsonRejected PostRejected
           OnboardingForm).
  reflexivity.
Defined.

(** C9.  A submit attempt whose [POST] is not answered by a 2xx response
    (the server rejects it, or [fetch] throws) leaves the form values as they
    were.  The values change only when the request was sent and answered by a
    2xx response, and then they are the empty defaults. *)
Theorem C9_failed_submission_keeps_the_values fr jr post f :
  let f' := onSubmit fr jr post f in
  (accepted post = false → values f' = values f)
  ∧ (values f' ≠ values f →
     accepted post = true ∧ values f' = defaultValues
     ∧ isEmptyObject (onboardingSchema (values f)) = true
     ∧ snd (ensureCorporationValid fr jr f) = true).
Proof.
  intros f'.
  assert (values f' = values f
          ∨ (accepted post = true ∧ values f' = defaultValues
             ∧ isEmptyObject (onboardingSchema (values f)) = true
             ∧ snd (ensureCorporationValid fr jr f) = true)) as Hcases.
  { subst f'. unfold onSubmit, handleSubmit.
    destruct (isEmptyObject (onboardingSchema (values f))) eqn:Hsync; [|by left].
    set (g := set_errors no_errors f).
    assert (snd (ensureCorporationValid fr jr g) = snd (ensureCorporationValid fr jr f)) as Heq.
    { by rewrite !ensureCorporationValid_ok. }
    rewrite <- Heq.
    destruct (snd (ensureCorporationValid fr jr g)) eqn:Hok.
    - pose proof (submit_sent fr jr post (values f) g Hok) as [_ Hpost].
      destruct post as [|[|] json]; simpl in *.
      + left. tauto.
      + right. tauto.
      + left. tauto.
    - pose proof (submit_stopped fr jr post (values f) g Hok) as (Hv & _). by left. }
  split.
  - intros Hrej. destruct Hcases as [?|[Hacc _]]; [done|congruence].
  - intros Hne. destruct Hcases as [?|?]; [done|tauto].
Qed.

Lemma C9_failed_submission_keeps_the_values_witness :
  values (onSubmit (FetchResponse true) (JsonParsed payload_valid)
            (PostResponse false JsonRejected) filled_form)
  = values filled_form.
Proof.
  apply (proj1 (C9_failed_submission_keeps_the_values
                  (FetchResponse true) (JsonParsed payload_valid)
                  (PostResponse false JsonRejected) filled_form)).
  reflexivity.
Defined.

(* ===================================================================== *)
(** ** Further properties of the hook *)
(* ===================================================================== *)

(** X1.  At any point of a session, whatever the network does, at most one
    request whose signal is not aborted is awaited, and it is the one held by
    [abortRef.current]. *)
Theorem at_most_one_request_is_live contract es s c1 n1 ph1 c2 n2 ph2 :
  run contract es mounted = Some s →
  suspended s !! c1 = Some (n1, ph1) → signal_aborted c1 (hook s) = false →
  suspended s !! c2 = Some (n2, ph2) → signal_aborted c2 (hook s) = false →
  c1 = c2 ∧ abortRef (hook s) = Some c1.
Proof.
  intros Hrun Hs1 Ha1%signal_aborted_false Hs2 Ha2%signal_aborted_false.
  pose proof (session_inv_run _ _ _ _ session_inv_mounted Hrun) as I.
  pose proof (si_single _ I _ _ _ Hs1 Ha1) as H1.
  pose proof (si_single _ I _ _ _ Hs2 Ha2) as H2.
  split; [congruence | exact H1].
Qed.

Lemma at_most_one_request_is_live_witness :
  0 = 0 ∧ abortRef (hook awaiting_fetch_123) = Some 0.
Proof.
  apply (at_most_one_request_is_live true [CallValidate "123456789"]
           awaiting_fetch_123 0 "123456789" AwaitingFetch 0 "123456789" AwaitingFetch).
  - vm_compute. reflexivity.
  - vm_compute. reflexivity.
  - vm_compute. reflexivity.
  - vm_compute. reflexivity.
  - vm_compute. reflexivity.
Defined.

(** X2.  Whenever the hook reports loading, the request held by
    [abortRef.current] is still awaited and its signal is not aborted: the
    spinner is never shown without a live request behind it. *)
Theorem loading_has_a_live_request contract es s :
  run contract es mounted = Some s →
  isLoading (hook s) = true →
  ∃ c n ph,
    abortRef (hook s) = Some c
    ∧ suspended s !! c = Some (n, ph)
    ∧ signal_aborted c (hook s) = false
    ∧ nine_digits n = true.
Proof.
  intros Hrun Hl.
  pose proof (session_inv_run _ _ _ _ session_inv_mounted Hrun) as I.
  assert (status (hook s) = Loading) as Hst.
  { unfold isLoading in Hl. by destruct (status (hook s)). }
  destruct (si_loading _ I Hst) as (c & n & ph & Hc & Hs & Hna).
  exists c, n, ph. split; [exact Hc|]. split; [exact Hs|].
  split; [by apply signal_aborted_false | by eapply si_digits].
Qed.

Lemma loading_has_a_live_request_witness :
  ∃ c n ph,
    abortRef (hook two_lookups) = Some c
    ∧ suspended two_lookups !! c = Some (n, ph)
    ∧ signal_aborted c (hook two_lookups) = false
    ∧ nine_digits n = true.
Proof.
  apply (loading_has_a_live_request true
           [CallValidate "123456789"; CallValidate "987654321"] two_lookups).
  - vm_compute. reflexivity.
  - vm_compute. reflexivity.
Defined.

(** X3.  Every entry of the cache is keyed by a string of nine digits and
    holds a result of the shape the hook builds from a payload: a valid
    result has no message, an invalid one has a message that is neither
    [undefined] nor [null]. *)
Theorem cache_holds_well_shaped_results contract es s n r :
  run contract es mounted = Some s →
  cacheRef (hook s) !! n = Some r →
  nine_digits n = true
  ∧ (if valid r then message r = JUndefined else nullish (message r) = false).
Proof.
  intros Hrun Hc.
  pose proof (session_inv_run _ _ _ _ session_inv_mounted Hrun) as I.
  destruct (si_cache _ I _ _ Hc) as [Hd Hshape]. split; [exact Hd|].
  unfold well_shaped in Hshape. destruct (valid r).
  - by destruct (message r).
  - by apply negb_true_iff.
Qed.

Lemma cache_holds_well_shaped_results_witness :
  nine_digits "123456789" = true
  ∧ nullish (JStr "Invalid corporation number") = false.
Proof.
  apply (cache_holds_well_shaped_results true
           [CallValidate "123456789"; FetchSettles 0 (FetchResponse true);
            JsonSettles 0 (JsonParsed (JObject 0 []))]
           after_empty_payload "123456789" invalid_fallback).
  - vm_compute. reflexivity.
  - vm_compute. reflexivity.
Defined.

(** X4.  The two pieces of React state agree in every session: when status
    is invalid, errorMessage is neither [null] nor [undefined]; in every
    other status (idle, loading, valid) errorMessage is [null]. *)
Theorem status_and_message_agree contract es s :
  run contract es mounted = Some s →
  match status (hook s) with
  | Invalid => nullish (errorMessage (hook s)) = false
  | _ => errorMessage (hook s) = JNull
  end.
Proof.
  intros Hrun.
  pose proof (session_inv_run _ _ _ _ session_inv_mounted Hrun) as I.
  pose proof (si_message _ I) as Hm. by destruct (status (hook s)).
Qed.

Lemma status_and_message_agree_witness :
  nullish (errorMessage (hook after_not_ok)) = false.
Proof.
  apply (status_and_message_agree true
           [CallValidate "123456789"; FetchSettles 0 (FetchResponse false)]
           after_not_ok).
  vm_compute. reflexivity.
Defined.

(** X5.  Every request the hook sends carries the signal of a controller of
    its own: read from the oldest call to the newest, the signals are the
    controllers 0, 1, 2, ... in the order of their construction, so no two
    calls share a signal and there are as many calls as controllers. *)
Theorem every_lookup_has_its_own_signal contract es s :
  run contract es mounted = Some s →
  rev (map signal (fetch_calls (hook s))) = seq 0 (controllers (hook s))
  ∧ NoDup (map signal (fetch_calls (hook s)))
  ∧ length (fetch_calls (hook s)) = controllers (hook s).
Proof.
  intros Hrun.
  pose proof (session_inv_run _ _ _ _ session_inv_mounted Hrun) as I.
  pose proof (si_signals _ I) as Hsig.
  split; [by rewrite Hsig, rev_involutive|]. split.
  - rewrite Hsig. apply NoDup_ListNoDup, NoDup_rev, List.seq_NoDup.
  - rewrite <- (length_map signal), Hsig, length_rev. apply length_seq.
Qed.

Lemma every_lookup_has_its_own_signal_witness :
  rev (map signal (fetch_calls (hook two_lookups)))
  = seq 0 (controllers (hook two_lookups))
  ∧ NoDup (map signal (fetch_calls (hook two_lookups)))
  ∧ length (fetch_calls (hook two_lookups)) = controllers (hook two_lookups).
Proof.
  apply (every_lookup_has_its_own_signal true
           [CallValidate "123456789"; CallValidate "987654321"] two_lookups).
  vm_compute. reflexivity.
Defined.

(** X6.  How the status moves in one turn of the event loop.  It becomes
    loading only when a call of [validate] issues a request (nine digits, not
    cached); it becomes idle only by [reset]; it becomes valid, or invalid,
    only in a turn in which a call of [validate] returns a result that is
    valid, or invalid. *)
Theorem status_transitions e s s' r :
  step e s = Some (s', r) →
  status (hook s') = status (hook s)
  ∨ match status (hook s') with
    | Loading =>
        ∃ n, e = CallValidate n ∧ r = None ∧ nine_digits n = true
             ∧ cacheRef (hook s) !! n = None
    | Idle => e = CallReset
    | Valid => ∃ res, r = Some res ∧ valid res = true
    | Invalid => ∃ res, r = Some res ∧ valid res = false
    end.
Proof.
  intros H. destruct e as [n|c fr|c jr|].
  - invert_step H; hook_cases; simpl.
    + match goal with
      | |- context [valid ?x] => destruct (valid x) eqn:Hv; right; eauto
      end.
    + by left.
    + right. eauto.
  - destruct (settle_cases (FetchSettles c fr) c _ _ _ eq_refl H) as (n & ph & _ & Hcase).
    destruct Hcase as [(-> & _)|[(-> & _)|[(-> & _ & _ & ->)|(p & -> & _ & _ & ->)]]];
      simpl; eauto.
    destruct (truthy (opt_member p "valid")) eqn:Hv; right; eexists; by rewrite ?Hv.
  - destruct (settle_cases (JsonSettles c jr) c _ _ _ eq_refl H) as (n & ph & _ & Hcase).
    destruct Hcase as [(-> & _)|[(-> & _)|[(-> & _ & _ & ->)|(p & -> & _ & _ & ->)]]];
      simpl; eauto.
    destruct (truthy (opt_member p "valid")) eqn:Hv; right; eexists; by rewrite ?Hv.
  - invert_step H. simpl. by right.
Qed.

Lemma status_transitions_witness :
  status (hook after_not_ok) = status (hook awaiting_fetch_123)
  ∨ match status (hook after_not_ok) with
    | Loading =>
        ∃ n, FetchSettles 0 (FetchResponse false) = CallValidate n
             ∧ Some invalid_fallback = None ∧ nine_digits n = true
             ∧ cacheRef (hook awaiting_fetch_123) !! n = None
    | Idle => FetchSettles 0 (FetchResponse false) = CallReset
    | Valid => ∃ res, Some invalid_fallback = Some res ∧ valid res = true
    | Invalid => ∃ res, Some invalid_fallback = Some res ∧ valid res = false
    end.
Proof.
  apply (status_transitions (FetchSettles 0 (FetchResponse false))
           awaiting_fetch_123 after_not_ok (Some invalid_fallback)).
  vm_compute. reflexivity.
Defined.

(** After [reset], every request still awaited is aborted. *)
Lemma reset_aborts_all s s1 r :
  session_inv s → step CallReset s = Some (s1, r) →
  ∀ c n ph, suspended s1 !! c = Some (n, ph) → c ∈ aborted (hook s1).
Proof.
  intros I H c n ph Hs. invert_step H. simpl in *.
  apply aborted_abort_current.
  destruct (decide (c ∈ aborted (hook s))); [auto|].
  left. by eapply si_single.
Qed.

(** While only aborted requests settle, the hook does not move. *)
Lemma aborted_requests_settle_silently es : ∀ s s',
  (∀ c n ph, suspended s !! c = Some (n, ph) → c ∈ aborted (hook s)) →
  forallb is_settle es = true →
  run true es s = Some s' →
  hook s' = hook s.
Proof.
  induction es as [|e es IH]; intros s s' Hall Hes H.
  - by injection H as <-.
  - simpl in Hes. apply andb_true_iff in Hes as [He Hes].
    apply run_cons in H as (s1 & r & Hon & Hstep & Hrest).
    specialize (Hon eq_refl).
    unfold is_settle in He. destruct (settles e) as [c|] eqn:Hc; [|discriminate].
    destruct (settle_cases _ _ _ _ _ Hc Hstep) as (n & ph & Hs & _).
    destruct (settle_aborted _ _ _ _ _ (Hall _ _ _ Hs) Hc Hon Hstep) as [-> _].
    rewrite (IH (forget c s) s'); [done| |done|done].
    simpl. intros c' n' ph'. rewrite lookup_delete. case_decide; [done|]. apply Hall.
Qed.

(** X7.  [reset] cancels what is in flight: after it, as long as [validate]
    is not called again, the answers of the requests still awaited (which
    reject, [fetch] honouring its abort signal) change nothing.  Status stays
    idle, errorMessage stays [null], and the cache is the one from before
    the reset. *)
Theorem reset_silences_requests_in_flight es s s1 r es' s2 :
  run true es mounted = Some s →
  step CallReset s = Some (s1, r) →
  forallb is_settle es' = true →
  run true es' s1 = Some s2 →
  hook s2 = reset (hook s)
  ∧ status (hook s2) = Idle
  ∧ errorMessage (hook s2) = JNull
  ∧ cacheRef (hook s2) = cacheRef (hook s).
Proof.
  intros Hrun Hreset Hes Hrun'.
  pose proof (session_inv_run _ _ _ _ session_inv_mounted Hrun) as I.
  pose proof (reset_aborts_all _ _ _ I Hreset) as Hall.
  rewrite (aborted_requests_settle_silently _ _ _ Hall Hes Hrun').
  unfold step in Hreset. injection Hreset as <- <-. simpl.
  split; [done|]. split; [done|]. split; [done|].
  apply abort_current_frame.
Qed.

Lemma reset_silences_requests_in_flight_witness :
  let s2 := {| hook := reset (hook two_lookups); suspended := ∅ |} in
  hook s2 = reset (hook two_lookups)
  ∧ status (hook s2) = Idle
  ∧ errorMessage (hook s2) = JNull
  ∧ cacheRef (hook s2) = cacheRef (hook two_lookups).
Proof.
  apply (reset_silences_requests_in_flight
           [CallValidate "123456789"; CallValidate "987654321"] two_lookups
           {| hook := reset (hook two_lookups); suspended := suspended two_lookups |}
           None [FetchSettles 0 FetchRejected; FetchSettles 1 FetchRejected]
           {| hook := reset (hook two_lookups); suspended := ∅ |}).
  - vm_compute. reflexivity.
  - vm_compute. reflexivity.
  - reflexivity.
  - vm_compute. reflexivity.
Defined.
(* ===================================================================== *)
(** ** Further properties of the form *)
(* ===================================================================== *)

(** X10.  [ensureCorporationValid] answers true exactly when it leaves the
    corporation field without an error; it never touches the errors of the
    other fields, nor the values. *)
Theorem ensureCorporationValid_answers_by_the_field_error fr jr f :
  let f' := fst (ensureCorporationValid fr jr f) in
  (snd (ensureCorporationValid fr jr f) = true
   ↔ corporationNumber_error (errors f') = None)
  ∧ firstName_error (errors f') = firstName_error (errors f)
  ∧ lastName_error (errors f') = lastName_error (errors f)
  ∧ phone_error (errors f') = phone_error (errors f)
  ∧ values f' = values f.
Proof.
  unfold ensureCorporationValid, trigger_corporationNumber.
  destruct (corporationNumber_error (onboardingSchema (values f))); simpl.
  - repeat split; done.
  - destruct (validate_await _ fr jr (corporation f)) as [h result].
    destruct (valid result); simpl; repeat split; done.
Qed.

Lemma strict_equals_refl m : strict_equals m m = true.
Proof.
  destruct m; simpl; try done.
  - by destruct b.
  - by apply Qeq_bool_iff.
  - apply String.eqb_refl.
  - apply Nat.eqb_refl.
  - apply Nat.eqb_refl.
Qed.

(** The calls to [fetch] one call of [validate] makes, followed to its
    return: one for a well-formed number that is not cached, none otherwise. *)
Lemma validate_await_fetch_calls n fr jr h :
  fetch_calls (fst (validate_await n fr jr h))
  = if nine_digits n then
      match cacheRef h !! n with
      | Some _ => fetch_calls h
      | None => {| url := lookup_url n; http_method := "GET";
                   signal := controllers h |} :: fetch_calls h
      end
    else fetch_calls h.
Proof.
  destruct (abort_current_frame h) as (_ & _ & En & _ & _ & Ef).
  unfold validate_await, validate, validate_fetched, validate_parsed,
    validate_catch, new_controller.
  destruct (nine_digits n); simpl; [|done].
  destruct (cacheRef h !! n); simpl; [done|].
  destruct fr as [|[|]]; simpl.
  - destruct (signal_aborted _ _); simpl; by rewrite En, Ef.
  - destruct jr; simpl; [|by rewrite En, Ef].
    destruct (signal_aborted _ _); simpl; by rewrite En, Ef.
  - by rewrite En, Ef.
Qed.

(** A call for a well-formed number that is not cached, followed to its
    return on a hook whose next controller is not aborted already. *)
Lemma validate_await_uncached n fr jr h :
  nine_digits n = true → cacheRef h !! n = None → hook_ok h →
  let h' := fst (validate_await n fr jr h) in
  let r := snd (validate_await n fr jr h) in
  match fr, jr with
  | FetchResponse true, JsonParsed payload =>
      r = result_of_payload payload
      ∧ cacheRef h' = <[n := r]> (cacheRef h)
      ∧ status h' = (if valid r then Valid else Invalid)
      ∧ errorMessage h' = (if valid r then JNull else message r)
  | _, _ =>
      r = {| valid := false; message := JStr fallbackMessage |}
      ∧ cacheRef h' = cacheRef h
      ∧ status h' = Invalid
      ∧ errorMessage h' = JStr fallbackMessage
  end.
Proof.
  intros Hd Hc Hok.
  destruct (abort_current_frame h) as (Ec & Ea & En & _).
  assert (∀ h0, aborted h0 = aborted (abort_current h) →
            signal_aborted (controllers (abort_current h)) h0 = false) as Hlive.
  { intros h0 E0. apply signal_aborted_false. rewrite E0, En.
    intros [?|?]%aborted_abort_current.
    - pose proof (Hok (controllers h) (or_intror H)). lia.
    - pose proof (Hok (controllers h) (or_introl H)). lia. }
  unfold validate_await, validate. rewrite Hd, Hc. simpl.
  unfold validate_fetched, validate_parsed, validate_catch.
  destruct fr as [|[|]].
  - simpl. rewrite Hlive by done. simpl. by rewrite Ec.
  - destruct jr as [|payload].
    + simpl. rewrite Hlive by done. simpl. by rewrite Ec.
    + simpl. rewrite Ec. repeat split; try done.
      unfold coalesce.
      destruct (truthy (opt_member payload "valid")); [done|].
      by destruct (nullish (opt_member payload "message")) eqn:E; simpl; rewrite ?E.
  - simpl. by rewrite Ec.
Qed.

(** A call that returns a valid result leaves that result in the cache. *)
Lemma validate_await_valid n fr jr h :
  valid (snd (validate_await n fr jr h)) = true →
  nine_digits n = true
  ∧ cacheRef (fst (validate_await n fr jr h)) !! n
    = Some (snd (validate_await n fr jr h)).
Proof.
  unfold validate_await, validate, validate_fetched, validate_parsed,
    validate_catch, new_controller.
  destruct (nine_digits n); simpl; [|done].
  destruct (cacheRef h !! n) eqn:Hc; simpl.
  - intros _. done.
  - destruct fr as [|[|]]; simpl.
    + by destruct (signal_aborted _ _).
    + destruct jr; simpl.
      * by destruct (signal_aborted _ _).
      * intros _. split; [done|]. apply lookup_insert_eq.
    + done.
Qed.

(** A call that returns a valid result has set status valid and no message. *)
Lemma validate_await_valid_state n fr jr h :
  valid (snd (validate_await n fr jr h)) = true →
  status (fst (validate_await n fr jr h)) = Valid
  ∧ errorMessage (fst (validate_await n fr jr h)) = JNull.
Proof.
  unfold validate_await, validate, validate_fetched, validate_parsed,
    validate_catch, new_controller, apply_result.
  destruct (nine_digits n); simpl; [|done].
  destruct (cacheRef h !! n) as [cached|] eqn:Hc; simpl.
  - by intros ->.
  - destruct fr as [|[|]]; simpl.
    + by destruct (signal_aborted _ _).
    + destruct jr; simpl.
      * by destruct (signal_aborted _ _).
      * by intros ->.
    + done.
Qed.

(** The hook after [ensureCorporationValid]: untouched when the format rule
    fails, otherwise what the call of [validate] leaves. *)
Lemma ensureCorporationValid_corporation fr jr f :
  corporation (fst (ensureCorporationValid fr jr f))
  = if nine_digits (corporationNumber (values f))
    then fst (validate_await (corporationNumber (values f)) fr jr (corporation f))
    else corporation f.
Proof.
  unfold ensureCorporationValid, trigger_corporationNumber, onboardingSchema, regex.
  cbn [corporationNumber_error].
  destruct (nine_digits (corporationNumber (values f))); simpl; [|done].
  destruct (validate_await _ fr jr (corporation f)) as [h result]. simpl.
  by destruct (valid result).
Qed.

(** The error of the corporation field after [ensureCorporationValid]. *)
Lemma ensureCorporationValid_error fr jr f :
  corporationNumber_error (errors (fst (ensureCorporationValid fr jr f)))
  = if nine_digits (corporationNumber (values f))
    then let r := snd (validate_await (corporationNumber (values f)) fr jr
                         (corporation f)) in
         if valid r then None
         else Some (coalesce (message r) (JStr "Invalid corporation number"))
    else Some format_message.
Proof.
  unfold ensureCorporationValid, trigger_corporationNumber, onboardingSchema, regex.
  cbn [corporationNumber_error].
  destruct (nine_digits (corporationNumber (values f))); simpl; [|done].
  destruct (validate_await _ fr jr (corporation f)) as [h result]. simpl.
  by destruct (valid result).
Qed.

(** The blur handler is [ensureCorporationValid] as far as the hook, the
    values and the corporation error go: the field's own validation before
    it changes nothing that it reads. *)
Lemma corporation_onBlur_as_ensure fr jr f :
  let f' := corporation_onBlur fr jr f in
  corporation f' = corporation (fst (ensureCorporationValid fr jr f))
  ∧ corporationNumber_error (errors f')
    = corporationNumber_error (errors (fst (ensureCorporationValid fr jr f)))
  ∧ values f' = values f.
Proof.
  unfold corporation_onBlur, handleCorporationBlur.
  set (g := fst (trigger_corporationNumber f)).
  assert (values g = values f ∧ corporation g = corporation f) as [Hv Hc] by done.
  split; [|split].
  - by rewrite !ensureCorporationValid_corporation, Hv, Hc.
  - by rewrite !ensureCorporationValid_error, Hv, Hc.
  - destruct (ensureCorporationValid_frame fr jr g) as (-> & _). exact Hv.
Qed.

(** X11.  Blurring the corporation input contacts the network only for a
    number of nine digits that is not cached, and then with exactly one
    [GET] to the lookup address of that number.  For any other string of
    nine digits nothing is added to the calls; for a string that is not nine
    digits the hook is not touched at all and the field gets the format
    message. *)
Theorem blur_looks_up_only_a_well_formed_uncached_number fr jr f :
  let n := corporationNumber (values f) in
  let f' := corporation_onBlur fr jr f in
  if nine_digits n then
    fetch_calls (corporation f')
    = match cacheRef (corporation f) !! n with
      | Some _ => fetch_calls (corporation f)
      | None => {| url := lookup_url n; http_method := "GET";
                   signal := controllers (corporation f) |}
                :: fetch_calls (corporation f)
      end
  else corporation f' = corporation f
       ∧ corporationNumber_error (errors f') = Some format_message.
Proof.
  intros n f'. subst n f'.
  destruct (corporation_onBlur_as_ensure fr jr f) as (Hc & He & _).
  rewrite Hc, He, ensureCorporationValid_corporation, ensureCorporationValid_error.
  destruct (nine_digits (corporationNumber (values f))) eqn:Hd; [|done].
  by rewrite validate_await_fetch_calls, Hd.
Qed.

(** X12.  The corporation input holds nine digits that are not cached, and
    the lookup fails, or answers without a truthy [valid] and with a message
    that is a string when there is one (as the endpoint's interface says).
    After the blur, the field error and the hook's errorMessage are the same
    string, status is invalid, the render does not throw, and exactly one
    element is rendered under the input: the validation error when the
    message is not empty, the plain field error when it is the empty
    string.  The same message is not rendered twice. *)
Theorem failed_lookup_on_blur_renders_one_error fr jr f :
  nine_digits (corporationNumber (values f)) = true →
  cacheRef (corporation f) !! corporationNumber (values f) = None →
  hook_ok (corporation f) →
  match fr, jr with
  | FetchResponse true, JsonParsed payload =>
      truthy (opt_member payload "valid") = false
      ∧ match opt_member payload "message" with
        | JStr _ | JUndefined | JNull => True
        | _ => False
        end
  | _, _ => True
  end →
  let f' := corporation_onBlur fr jr f in
  ∃ m : string,
    corporationNumber_error (errors f') = Some (JStr m)
    ∧ status (corporation f') = Invalid
    ∧ errorMessage (corporation f') = JStr m
    ∧ render_corporation_field f'
      = [if String.eqb m "" then CorporationError (JStr m)
         else CorporationValidationError (JStr m)]
    ∧ render_throws f' = false.
Proof.
  intros Hd Hc Hok Hfail f'.
  destruct (corporation_onBlur_as_ensure fr jr f) as (Ec & Ee & _).
  fold f' in Ec, Ee.
  rewrite ensureCorporationValid_corporation, Hd in Ec.
  rewrite ensureCorporationValid_error, Hd in Ee.
  pose proof (validate_await_uncached _ fr jr _ Hd Hc Hok) as Hawait.
  cbv zeta in Hawait, Ee.
  set (h' := fst (validate_await (corporationNumber (values f)) fr jr (corporation f))) in *.
  set (r := snd (validate_await (corporationNumber (values f)) fr jr (corporation f))) in *.
  assert (∃ m : string, r = {| valid := false; message := JStr m |}
               ∧ status h' = Invalid ∧ errorMessage h' = JStr m) as (m & Hr & Hs & Hmsg).
  { destruct fr as [|[|]]; [| |]; try destruct jr as [|payload];
      try (destruct Hawait as (-> & _ & -> & ->); by exists fallbackMessage).
    destruct Hawait as (Hr & _ & Hs & Hmsg). destruct Hfail as [Hfalsy Htext].
    unfold result_of_payload in Hr. rewrite Hfalsy in Hr.
    rewrite Hr in Hs, Hmsg. simpl in Hs, Hmsg. unfold coalesce in Hr, Hmsg.
    destruct (opt_member payload "message") as [| | | |msg| |]; try done;
      simpl in Hr, Hmsg; eauto. }
  exists m. rewrite Hr in Ee. simpl in Ee.
  split; [exact Ee|].
  split; [by rewrite Ec|]. split; [by rewrite Ec|].
  assert (render_corporation_field f'
          = [if String.eqb m "" then CorporationError (JStr m)
             else CorporationValidationError (JStr m)]) as Hrender.
  { unfold render_corporation_field, corporationErrorMatchesValidationMessage,
      corporationNumber_message, isLoading.
    rewrite Ee, Ec, Hs, Hmsg. simpl. rewrite String.eqb_refl.
    by destruct (String.eqb m ""). }
  split; [exact Hrender|].
  unfold render_throws. rewrite Hrender. by destruct (String.eqb m "").
Qed.

Lemma hook_ok_mounted : hook_ok useCorporationNumberValidation.
Proof. apply (hook_ok_of_session mounted), session_inv_mounted. Qed.

Lemma failed_lookup_on_blur_renders_one_error_witness :
  let f' := corporation_onBlur (FetchResponse true)
              (JsonParsed (JObject 0 [("valid", JBool false); ("message", JStr "")]))
              (type_corporationNumber "123456789" OnboardingForm) in
  ∃ m : string,
    corporationNumber_error (errors f') = Some (JStr m)
    ∧ status (corporation f') = Invalid
    ∧ errorMessage (corporation f') = JStr m
    ∧ render_corporation_field f'
      = [if String.eqb m "" then CorporationError (JStr m)
         else CorporationValidationError (JStr m)]
    ∧ render_throws f' = false.
Proof.
  apply (failed_lookup_on_blur_renders_one_error (FetchResponse true)
           (JsonParsed (JObject 0 [("valid", JBool false); ("message", JStr "")]))
           (type_corporationNumber "123456789" OnboardingForm)).
  - reflexivity.
  - reflexivity.
  - exact hook_ok_mounted.
  - split; [reflexivity | exact I].
Defined.

(** X13.  When the lookup of the corporation number returns valid (from the
    network or from the cache), the blur leaves the field without an error,
    status valid, and renders the badge "Corporation number validated."
    alone; the valid result is in the cache. *)
Theorem valid_lookup_on_blur_renders_the_badge fr jr f :
  nine_digits (corporationNumber (values f)) = true →
  valid (snd (validate_await (corporationNumber (values f)) fr jr (corporation f)))
  = true →
  let f' := corporation_onBlur fr jr f in
  render_corporation_field f' = [CorporationValid]
  ∧ corporationNumber_error (errors f') = None
  ∧ status (corporation f') = Valid
  ∧ ∃ r, cacheRef (corporation f') !! corporationNumber (values f) = Some r
         ∧ valid r = true.
Proof.
  intros Hd Hv f'.
  destruct (corporation_onBlur_as_ensure fr jr f) as (Ec & Ee & _).
  fold f' in Ec, Ee.
  rewrite ensureCorporationValid_corporation, Hd in Ec.
  rewrite ensureCorporationValid_error, Hd in Ee. cbv zeta in Ee. rewrite Hv in Ee.
  destruct (validate_await_valid_state _ _ _ _ Hv) as [Hs Hm].
  destruct (validate_await_valid _ _ _ _ Hv) as [_ Hcache].
  split.
  - unfold render_corporation_field, corporationErrorMatchesValidationMessage,
      corporationNumber_message, isLoading.
    by rewrite Ee, Ec, Hs, Hm.
  - split; [exact Ee|]. rewrite Ec. split; [exact Hs|]. eauto.
Qed.

Lemma valid_lookup_on_blur_renders_the_badge_witness :
  let f' := corporation_onBlur (FetchResponse true) (JsonParsed payload_valid)
              filled_form in
  render_corporation_field f' = [CorporationValid]
  ∧ corporationNumber_error (errors f') = None
  ∧ status (corporation f') = Valid
  ∧ ∃ r, cacheRef (corporation f') !! corporationNumber (values filled_form) = Some r
         ∧ valid r = true.
Proof.
  apply (valid_lookup_on_blur_renders_the_badge (FetchResponse true)
           (JsonParsed payload_valid) filled_form).
  - reflexivity.
  - vm_compute. reflexivity.
Defined.

(** X14.  What is rendered under the corporation input in any state of the
    form whose messages are text (errorMessage null or a string, the field
    error a string when there is one): the render does not throw; at most
    two elements are drawn and no bare text; the spinner, the valid badge and
    the validation error exclude one another; and when the validation error
    and the plain field error are both drawn, their texts are not [===]: one
    message is not shown twice. *)
Theorem rendering_under_the_corporation_input f :
  messages_are_text f = true →
  let l := render_corporation_field f in
  render_throws f = false
  ∧ (length l ≤ 2)%nat
  ∧ (∀ t, ¬ In (RawText t) l)
  ∧ (In ValidationRow l →
     ¬ In CorporationValid l ∧ ∀ t, ¬ In (CorporationValidationError t) l)
  ∧ (In CorporationValid l → ∀ t, ¬ In (CorporationValidationError t) l)
  ∧ (∀ t t', In (CorporationValidationError t) l → In (CorporationError t') l →
             strict_equals t' t = false).
Proof.
  unfold messages_are_text, render_throws, render_corporation_field,
    corporationErrorMatchesValidationMessage, corporationNumber_message, isLoading.
  intros Htext.
  destruct (errorMessage (corporation f)) as [| | | |msg| |]; try discriminate Htext;
    destruct (corporationNumber_error (errors f)) as [[| | | |m| |]|];
    try discriminate Htext; clear Htext;
    destruct (status (corporation f)); simpl;
    try destruct (String.eqb msg "") eqn:Hmsg; simpl;
    try destruct (String.eqb m msg) eqn:Heq; simpl;
    (split; [done|]); (split; [lia|]);
    repeat split; intros;
    repeat match goal with
    | H : _ ∨ _ |- _ => destruct H
    | H : False |- _ => destruct H
    | H : CorporationValidationError _ = CorporationValidationError _ |- _ =>
        injection H as <-
    | H : CorporationError _ = CorporationError _ |- _ => injection H as <-
    | |- ¬ _ => intros ?
    end; try discriminate; try done.
Qed.

Lemma rendering_under_the_corporation_input_witness :
  let f := corporation_onBlur (FetchResponse false) JsonRejected
             (type_corporationNumber "123456789" OnboardingForm) in
  let l := render_corporation_field f in
  render_throws f = false
  ∧ (length l ≤ 2)%nat
  ∧ (∀ t, ¬ In (RawText t) l)
  ∧ (In ValidationRow l →
     ¬ In CorporationValid l ∧ ∀ t, ¬ In (CorporationValidationError t) l)
  ∧ (In CorporationValid l → ∀ t, ¬ In (CorporationValidationError t) l)
  ∧ (∀ t t', In (CorporationValidationError t) l → In (CorporationError t') l →
             strict_equals t' t = false).
Proof.
  apply (rendering_under_the_corporation_input
           (corporation_onBlur (FetchResponse false) JsonRejected
              (type_corporationNumber "123456789" OnboardingForm))).
  vm_compute. reflexivity.
Defined.

(** The hook after the handler of [onSubmit]. *)
Lemma submit_corporation fr jr post vals f :
  corporation (submit fr jr post vals f)
  = if snd (ensureCorporationValid fr jr f) && accepted post
    then reset (corporation (fst (ensureCorporationValid fr jr f)))
    else corporation (fst (ensureCorporationValid fr jr f)).
Proof.
  unfold submit.
  set (f0 := setServerSuccess JNull (setServerError JNull f)).
  assert (snd (ensureCorporationValid fr jr f0) = snd (ensureCorporationValid fr jr f)) as Hok.
  { by rewrite !ensureCorporationValid_ok. }
  assert (corporation (fst (ensureCorporationValid fr jr f0))
          = corporation (fst (ensureCorporationValid fr jr f))) as Hc.
  { by rewrite !ensureCorporationValid_corporation. }
  rewrite <- Hok, <- Hc.
  destruct (ensureCorporationValid fr jr f0) as [f1 ok]. simpl.
  destruct ok; simpl; [|done]. by destruct post as [|[|] json].
Qed.

(** X15.  One submit attempt sends the [POST] at most once, and exactly when
    the schema accepts the values and the corporation check passes; it makes
    at most one lookup request; and when the schema rejects the values it
    does not touch the hook at all. *)
Theorem onSubmit_sends_at_most_one_request fr jr post f :
  let f' := onSubmit fr jr post f in
  profile_calls f'
  = ((if isEmptyObject (onboardingSchema (values f))
         && snd (ensureCorporationValid fr jr f)
      then [profile_request (values f)] else [])
     ++ profile_calls f)%list
  ∧ (length (fetch_calls (corporation f'))
     ≤ S (length (fetch_calls (corporation f))))%nat
  ∧ (isEmptyObject (onboardingSchema (values f)) = false →
     corporation f' = corporation f).
Proof.
  unfold onSubmit, handleSubmit. cbv zeta.
  destruct (isEmptyObject (onboardingSchema (values f))) eqn:Hsync; simpl;
    [|split; [done|split; [lia|done]]].
  set (g := set_errors no_errors f).
  assert (snd (ensureCorporationValid fr jr g) = snd (ensureCorporationValid fr jr f)) as Heq.
  { by rewrite !ensureCorporationValid_ok. }
  rewrite <- Heq. split; [|split; [|done]].
  - destruct (snd (ensureCorporationValid fr jr g)) eqn:Hok.
    + by destruct (submit_sent fr jr post (values f) g Hok) as [-> _].
    + by destruct (submit_stopped fr jr post (values f) g Hok) as (_ & _ & _ & ->).
  - rewrite submit_corporation, ensureCorporationValid_corporation.
    change (values g) with (values f). change (corporation g) with (corporation f).
    assert (∀ h, fetch_calls (reset h) = fetch_calls h) as Hreset.
    { intros h. unfold reset. simpl. apply abort_current_frame. }
    pose proof (validate_await_fetch_calls (corporationNumber (values f)) fr jr
                  (corporation f)) as Hcalls.
    destruct (snd (ensureCorporationValid fr jr g) && accepted post);
      rewrite ?Hreset;
      destruct (nine_digits (corporationNumber (values f))); try lia;
      rewrite Hcalls; destruct (cacheRef (corporation f) !! _); simpl; lia.
Qed.

(** X16.  After a submission that the server accepted, the form is pristine:
    the values are empty, there is no field error, the hook is back to idle
    with no message, and nothing is rendered under the corporation input.
    The cache is kept: it still holds the valid result of the number that
    was submitted. *)
Theorem accepted_submission_leaves_a_pristine_form fr jr json f :
  isEmptyObject (onboardingSchema (values f)) = true →
  valid (snd (validate_await (corporationNumber (values f)) fr jr (corporation f)))
  = true →
  let f' := onSubmit fr jr (PostResponse true json) f in
  values f' = defaultValues
  ∧ errors f' = no_errors
  ∧ status (corporation f') = Idle
  ∧ errorMessage (corporation f') = JNull
  ∧ render_corporation_field f' = []
  ∧ ∃ r, cacheRef (corporation f') !! corporationNumber (values f) = Some r
         ∧ valid r = true.
Proof.
  intros Hsync Hvalid f'. subst f'. unfold onSubmit, handleSubmit. rewrite Hsync.
  set (g := set_errors no_errors f).
  pose proof (isEmptyObject_schema _ Hsync) as Hfmt.
  assert (snd (ensureCorporationValid fr jr g) = true) as Hok.
  { rewrite ensureCorporationValid_ok.
    change (values g) with (values f). change (corporation g) with (corporation f).
    by rewrite Hfmt. }
  assert (nine_digits (corporationNumber (values f)) = true) as Hd.
  { unfold onboardingSchema, regex in Hfmt. cbn [corporationNumber_error] in Hfmt.
    by destruct (nine_digits (corporationNumber (values f))). }
  pose proof (submit_sent fr jr (PostResponse true json) (values f) g Hok)
    as (_ & Hv & He & _ & _ & _).
  pose proof (submit_corporation fr jr (PostResponse true json) (values f) g) as Hc.
  rewrite Hok in Hc. simpl in Hc.
  rewrite ensureCorporationValid_corporation in Hc.
  change (values g) with (values f) in Hc.
  change (corporation g) with (corporation f) in Hc.
  rewrite Hd in Hc.
  destruct (validate_await_valid _ _ _ _ Hvalid) as [_ Hcache].
  split; [exact Hv|]. split; [exact He|].
  rewrite Hc. split; [done|]. split; [done|]. split.
  - unfold render_corporation_field, corporationErrorMatchesValidationMessage,
      corporationNumber_message, isLoading. by rewrite He, Hc.
  - exists (snd (validate_await (corporationNumber (values f)) fr jr (corporation f))).
    split; [|exact Hvalid]. unfold reset. simpl.
    destruct (abort_current_frame
                (fst (validate_await (corporationNumber (values f)) fr jr
                        (corporation f)))) as (-> & _).
    exact Hcache.
Qed.

Lemma accepted_submission_leaves_a_pristine_form_witness :
  let f' := onSubmit (FetchResponse true) (JsonParsed payload_valid)
              (PostResponse true (JsonParsed (JObject 1 []))) filled_form in
  values f' = defaultValues
  ∧ errors f' = no_errors
  ∧ status (corporation f') = Idle
  ∧ errorMessage (corporation f') = JNull
  ∧ render_corporation_field f' = []
  ∧ ∃ r, cacheRef (corporation f') !! corporationNumber (values filled_form) = Some r
         ∧ valid r = true.
Proof.
  apply (accepted_submission_leaves_a_pristine_form (FetchResponse true)
           (JsonParsed payload_valid) (JsonParsed (JObject 1 [])) filled_form).
  - vm_compute. reflexivity.
  - vm_compute. reflexivity.
Defined.

(** X17.  A format error does not clear what an earlier lookup left in the
    hook.  If status is invalid with a truthy message and the input, now not
    nine digits, is blurred, two error elements are rendered: the earlier
    validation error and the format error beside it. *)
Theorem stale_lookup_message_stays_beside_a_format_error fr jr f :
  nine_digits (corporationNumber (values f)) = false →
  status (corporation f) = Invalid →
  truthy (errorMessage (corporation f)) = true →
  strict_equals format_message (errorMessage (corporation f)) = false →
  render_corporation_field (corporation_onBlur fr jr f)
  = [CorporationValidationError (errorMessage (corporation f));
     CorporationError format_message].
Proof.
  intros Hd Hs Ht Hne.
  destruct (corporation_onBlur_as_ensure fr jr f) as (Ec & Ee & _).
  rewrite ensureCorporationValid_corporation, Hd in Ec.
  rewrite ensureCorporationValid_error, Hd in Ee.
  unfold render_corporation_field, corporationErrorMatchesValidationMessage,
    corporationNumber_message, isLoading.
  by rewrite Ee, Ec, Hs, Ht, Hne.
Qed.

Lemma stale_lookup_message_stays_beside_a_format_error_witness :
  let f := type_corporationNumber "12"
             (corporation_onBlur (FetchResponse false) JsonRejected
                (type_corporationNumber "123456789" OnboardingForm)) in
  render_corporation_field (corporation_onBlur FetchRejected JsonRejected f)
  = [CorporationValidationError (errorMessage (corporation f));
     CorporationError format_message].
Proof.
  apply (stale_lookup_message_stays_beside_a_format_error FetchRejected JsonRejected
           (type_corporationNumber "12"
              (corporation_onBlur (FetchResponse false) JsonRejected
                 (type_corporationNumber "123456789" OnboardingForm)))).
  - reflexivity.
  - vm_compute. reflexivity.
  - vm_compute. reflexivity.
  - vm_compute. reflexivity.
Defined.
